(** * WhatsApp top-3 watcher (app.js): a shallow embedding

    The development models the core of [WhatsAppEmailNotifier]:
    the in-page label extraction, the selector fallback loop and
    [getSimpleTop3Names], the change detector [arraysEqual], the poll
    loop [startMonitoring], the notifier [sendTop3Notification] and the
    start-up entry point [main].

    JavaScript strings are modelled as Stdlib strings; numbers of
    milliseconds (the clock read by [Date.now()] and advanced by
    [page.waitForTimeout]) as [N].  The browser page and the SMTP
    transport are an environment [Env]: it says which page call raises
    (by the call's sequence number), how long each call takes, what the
    document answers to a selector at a given time, and which mail
    attempt fails. *)

From Stdlib Require Import List String Ascii Bool Arith NArith Lia.
From Stdlib Require Import Decimal DecimalString DecimalN.
Import ListNotations.

Open Scope string_scope.

(* ------------------------------------------------------------------ *)
(** ** JavaScript string helpers *)

Module JsString.

(** Characters removed by [String.prototype.trim] (restricted to the
    8-bit range of [ascii]): TAB, LF, VT, FF, CR, SPACE and NBSP. *)
Definition is_ws (c : ascii) : bool :=
  let n := nat_of_ascii c in
  Nat.leb 9 n && Nat.leb n 13 || Nat.eqb n 32 || Nat.eqb n 160.

Fixpoint drop_ws (l : list ascii) : list ascii :=
  match l with
  | [] => []
  | c :: r => if is_ws c then drop_ws r else l
  end.

(** [s.trim()] *)
Definition trim (s : string) : string :=
  string_of_list_ascii
    (List.rev (drop_ws (List.rev (drop_ws (list_ascii_of_string s))))).

Definition is_digit (c : ascii) : bool :=
  let n := nat_of_ascii c in Nat.leb 48 n && Nat.leb n 57.

(** [s.match(/^\d{1,2}:\d{2}$/)] is truthy *)
Definition matches_time (s : string) : bool :=
  match list_ascii_of_string s with
  | [h; c; m1; m2] =>
      is_digit h && Ascii.eqb c ":" && is_digit m1 && is_digit m2
  | [h1; h2; c; m1; m2] =>
      is_digit h1 && is_digit h2 && Ascii.eqb c ":" && is_digit m1
      && is_digit m2
  | _ => false
  end.

Fixpoint prefixb (p s : list ascii) : bool :=
  match p, s with
  | [], _ => true
  | a :: p', b :: s' => Ascii.eqb a b && prefixb p' s'
  | _ :: _, [] => false
  end.

Fixpoint containsb (p s : list ascii) : bool :=
  prefixb p s || match s with [] => false | _ :: s' => containsb p s' end.

(** [s.includes(p)] *)
Definition includes (s p : string) : bool :=
  containsb (list_ascii_of_string p) (list_ascii_of_string s).

(** JavaScript truthiness of a string *)
Definition truthy (s : string) : bool := negb (String.eqb s "").

(** Template literal rendering of a non-negative integer, [`${n}`]. *)
Definition of_N (n : N) : string := NilZero.string_of_uint (N.to_uint n).

End JsString.

(* ------------------------------------------------------------------ *)
(** ** The DOM seen by [page.evaluate] *)

(** A descendant element of a chat list item, in document order. *)
Record Elem := mkElem {
  el_tag : string;
  el_title : option string;      (** [getAttribute('title')], [None] if absent *)
  el_textContent : string;
  el_innerText : string
}.

(** A chat list item ([div[role="listitem"]]) is given by its descendants. *)
Definition Node := list Elem.

(** [el.querySelectorAll('span[title]')] *)
Definition spans_with_title (el : Node) : list Elem :=
  filter (fun e => String.eqb (el_tag e) "span"
                   && match el_title e with Some _ => true | None => false end)
         el.

(** [el.querySelectorAll('span')] *)
Definition all_spans (el : Node) : list Elem :=
  filter (fun e => String.eqb (el_tag e) "span") el.

(** The guard of the first loop of the label function:
    [title && title.trim() && title.length > 1 && title.length < 50] *)
Definition title_ok (title : string) : bool :=
  JsString.truthy title && JsString.truthy (JsString.trim title)
  && Nat.ltb 1 (String.length title) && Nat.ltb (String.length title) 50.

(** [span.textContent || span.innerText] *)
Definition span_text (e : Elem) : string :=
  if JsString.truthy (el_textContent e) then el_textContent e
  else el_innerText e.

(** The guard of the second loop. *)
Definition text_ok (text : string) : bool :=
  JsString.truthy text && JsString.truthy (JsString.trim text)
  && Nat.ltb 1 (String.length text) && Nat.ltb (String.length text) 50
  && negb (JsString.matches_time text)
  && negb (JsString.includes text "http").

(** [span.getAttribute('title')] on a [span[title]] match. *)
Definition title_attr (e : Elem) : string :=
  match el_title e with Some t => t | None => "" end.

(** [for (const span of spans) { const title = span.getAttribute('title');
      if (...) return title.trim(); }] *)
Fixpoint title_loop (spans : list Elem) : option string :=
  match spans with
  | [] => None
  | e :: rest =>
      let title := title_attr e in
      if title_ok title then Some (JsString.trim title) else title_loop rest
  end.

(** [for (const span of allSpans) { const text = ...; if (...) return text.trim(); }] *)
Fixpoint text_loop (spans : list Elem) : option string :=
  match spans with
  | [] => None
  | e :: rest =>
      let text := span_text e in
      if text_ok text then Some (JsString.trim text) else text_loop rest
  end.

(** [`Contact ${Date.now()}`] *)
Definition placeholder (now : N) : string := "Contact " ++ JsString.of_N now.

(** The function passed to [page.evaluate] in [getSimpleTop3Names],
    run at time [now].  Besides its value it returns the list of
    [Date.now()] readings it made (at most one, in the fallback). *)
Definition extract_label (el : Node) (now : N) : string * list N :=
  match title_loop (spans_with_title el) with
  | Some name => (name, [])
  | None =>
      match text_loop (all_spans el) with
      | Some name => (name, [])
      | None => (placeholder now, [now])
      end
  end.

(* ------------------------------------------------------------------ *)
(** ** State, environment and the effect monad *)

(** The fields of the notifier object the code reads and writes
    ([isRunning], [savedTop3]), the log written by [logger], the clock,
    and the observable traffic: every mail handed to the transporter
    ([outbox]), those it accepted ([delivered]), the number of page
    calls made so far and the [Date.now()] readings of the in-page code. *)
Record St := mkSt {
  clock : N;
  ncalls : nat;
  isRunning : bool;
  savedTop3 : list string;
  outbox : list (list string);
  delivered : list (list string);
  reads : list N;
  logs : list (N * string)
}.

Record Env := mkEnv {
  env_fails : nat -> bool;            (** page call number [n] rejects *)
  env_latency : nat -> N;             (** duration of page call number [n] *)
  env_dom : N -> string -> list Node; (** [page.$$(sel)] on the document at time [t] *)
  env_mail_fails : nat -> bool        (** [sendMail] attempt number [n] rejects *)
}.

(** Outcome of an async call: resolved or rejected with a message. *)
Inductive result (A : Type) : Type :=
| Ok : A -> result A
| Exn : string -> result A.
Arguments Ok {A} _.
Arguments Exn {A} _.

Definition M (A : Type) : Type := St -> result A * St.

Definition ret {A} (a : A) : M A := fun st => (Ok a, st).

Definition bind {A B} (m : M A) (k : A -> M B) : M B := fun st =>
  match m st with
  | (Ok a, st') => k a st'
  | (Exn e, st') => (Exn e, st')
  end.

Notation "x <- m ;; k" := (bind m (fun x => k))
  (at level 61, m at next level, right associativity).
Notation "m ;; k" := (bind m (fun _ => k)) (at level 61, right associativity).

(** [try { m } catch (error) { h(error.message) }] *)
Definition catch {A} (m : M A) (h : string -> M A) : M A := fun st =>
  match m st with
  | (Ok a, st') => (Ok a, st')
  | (Exn e, st') => h e st'
  end.

Definition get : M St := fun st => (Ok st, st).

Definition upd (f : St -> St) : M unit := fun st => (Ok tt, f st).

Definition set_clock_calls (c : N) (n : nat) (st : St) : St :=
  mkSt c n (isRunning st) (savedTop3 st) (outbox st) (delivered st)
       (reads st) (logs st).
Definition set_running (b : bool) (st : St) : St :=
  mkSt (clock st) (ncalls st) b (savedTop3 st) (outbox st) (delivered st)
       (reads st) (logs st).
Definition set_saved (s : list string) (st : St) : St :=
  mkSt (clock st) (ncalls st) (isRunning st) s (outbox st) (delivered st)
       (reads st) (logs st).
Definition set_mail (o d : list (list string)) (st : St) : St :=
  mkSt (clock st) (ncalls st) (isRunning st) (savedTop3 st) o d
       (reads st) (logs st).
Definition add_reads (r : list N) (st : St) : St :=
  mkSt (clock st) (ncalls st) (isRunning st) (savedTop3 st) (outbox st)
       (delivered st) (reads st ++ r) (logs st).
Definition add_log (msg : string) (st : St) : St :=
  mkSt (clock st) (ncalls st) (isRunning st) (savedTop3 st) (outbox st)
       (delivered st) (reads st) (logs st ++ [(clock st, msg)]).

(** [logger.info/warn/error/debug(msg)]; the timestamp is the clock. *)
Definition log (msg : string) : M unit := upd (add_log msg).

(** Comma-joined rendering used in log lines ([arr.join(', ')]). *)
Fixpoint join (l : list string) : string :=
  match l with
  | [] => ""
  | [x] => x
  | x :: r => x ++ ", " ++ join r
  end.

Section Program.

Variable env : Env.

(** A protocol round-trip with the browser started at the current time:
    call number [n] takes [env_latency env n] and either rejects or
    yields [f] applied to the time it was issued. *)
Definition page_call {A} (f : N -> A) : M A := fun st =>
  let n := ncalls st in
  let st' := set_clock_calls (clock st + env_latency env n) (S n) st in
  if env_fails env n then (Exn "Protocol error", st')
  else (Ok (f (clock st)), st').

(** [await this.page.waitForTimeout(d)]: Puppeteer resolves it with a
    [setTimeout] of [d] ms and sends nothing to the browser, so it never
    rejects.  It still takes a sequence number, so that the numbers of
    the page calls follow the order of the page operations. *)
Definition waitForTimeout (d : N) : M unit := fun st =>
  (Ok tt, set_clock_calls (clock st + d) (S (ncalls st)) st).

(** [await this.page.$$(selector)] *)
Definition qsa (sel : string) : M (list Node) :=
  page_call (fun t => env_dom env t sel).

(** [await this.page.evaluate(labelFn, el)] *)
Definition evaluate_label (el : Node) : M string :=
  r <- page_call (extract_label el) ;;
  upd (add_reads (snd r)) ;;
  ret (fst r).

(* ------------------------------------------------------------------ *)
(** ** [getSimpleTop3Names] *)

(** The CSS attribute values are written with single quotes, which CSS
    treats like the double quotes of the source. *)
Definition chatSelectors : list string :=
  [ "[data-testid='chat-list'] div[role='listitem']"
  ; "#pane-side div[role='listitem']"
  ; "[data-testid='side'] div[role='listitem']"
  ; "div[role='listitem']" ].

(** The selector fallback loop, over any query action [q]:
    [let chats = []; for (const selector of sels) {
       chats = await q(selector); if (chats.length > 0) { ...; break; } }] *)
Fixpoint resolve (q : string -> M (list Node)) (sels : list string)
    (chats : list Node) : M (list Node) :=
  match sels with
  | [] => ret chats
  | sel :: rest =>
      cs <- q sel ;;
      if Nat.ltb 0 (List.length cs)
      then log ("Found " ++ sel) ;; ret cs
      else resolve q rest cs
  end.

(** [for (let i = 0; i < Math.min(3, chats.length); i++) {
       const name = await this.page.evaluate(..., chats[i]);
       top3Names.push(name); }] *)
Fixpoint name_loop (els : list Node) (top3Names : list string)
    : M (list string) :=
  match els with
  | [] => ret top3Names
  | el :: rest =>
      name <- evaluate_label el ;;
      name_loop rest (top3Names ++ [name])
  end.

(** [while (top3Names.length < 3) top3Names.push('')], with the
    iteration bound 3 that the condition implies. *)
Fixpoint pad_loop (fuel : nat) (top3Names : list string) : list string :=
  match fuel with
  | O => top3Names
  | S f => if Nat.ltb (List.length top3Names) 3
           then pad_loop f (top3Names ++ [""]) else top3Names
  end.

Definition no_chats_snapshot : list string := ["No chats found"; ""; ""].
Definition error_snapshot : list string := ["Error"; ""; ""].

(** The body of the [try] block, after [await waitForTimeout(1000)]. *)
Definition top3_after_wait : M (list string) :=
  chats <- resolve qsa chatSelectors [] ;;
  if Nat.eqb (List.length chats) 0
  then log "No chats found" ;; ret no_chats_snapshot
  else
    top3Names <- name_loop (firstn (Nat.min 3 (List.length chats)) chats) [] ;;
    ret (firstn 3 (pad_loop 3 top3Names)).

(** The body of the [try] block. *)
Definition top3_body : M (list string) :=
  waitForTimeout 1000 ;; top3_after_wait.

Definition getSimpleTop3Names : M (list string) :=
  catch top3_body
    (fun msg => log ("Error getting simple top 3: " ++ msg) ;;
                ret error_snapshot).

(* ------------------------------------------------------------------ *)
(** ** [arraysEqual] *)

(** [x !== y] on array slots; [undefined] is [None]. *)
Definition strict_neq (x y : option string) : bool :=
  match x, y with
  | Some a, Some b => negb (String.eqb a b)
  | None, None => false
  | _, _ => true
  end.

(** [for (let i = ...; i < a.length; i++) { if (a[i] !== b[i]) return false; }
     return true;] with [fuel] bounding the remaining iterations. *)
Fixpoint arrays_loop (a b : list string) (i fuel : nat) : bool :=
  match fuel with
  | O => true
  | S f =>
      if Nat.ltb i (List.length a) then
        if strict_neq (nth_error a i) (nth_error b i) then false
        else arrays_loop a b (S i) f
      else true
  end.

Definition arraysEqual (a b : list string) : bool :=
  if negb (Nat.eqb (List.length a) (List.length b)) then false
  else arrays_loop a b 0 (List.length a).

(* ------------------------------------------------------------------ *)
(** ** [sendTop3Notification] *)

(** [await this.emailTransporter.sendMail(mailOptions)]: the attempt is
    handed to the transporter (recorded in [outbox], with the three names
    the HTML body embeds) and is accepted or rejected. *)
Definition sendMail (newTop3 : list string) : M unit := fun st =>
  let n := List.length (outbox st) in
  let st' := set_mail (outbox st ++ [newTop3]) (delivered st) st in
  if env_mail_fails env n then (Exn "SMTP error", st')
  else (Ok tt, set_mail (outbox st') (delivered st ++ [newTop3]) st').

Definition sendTop3Notification (newTop3 : list string) : M unit :=
  catch (log "Sending top 3 contacts notification" ;;
         sendMail newTop3 ;;
         log "Top 3 notification sent successfully")
        (fun msg => log ("Error sending top 3 notification: " ++ msg)).

(* ------------------------------------------------------------------ *)
(** ** [startMonitoring] *)

(** The part of the loop body after the extraction. *)
Definition on_snapshot (currentTop3 : list string) : M unit :=
  st <- get ;;
  let hasChanged := negb (arraysEqual currentTop3 (savedTop3 st)) in
  if hasChanged then
    log "Top 3 changed!" ;;
    log ("Old: " ++ join (savedTop3 st)) ;;
    log ("New: " ++ join currentTop3) ;;
    sendTop3Notification currentTop3 ;;
    upd (set_saved currentTop3)
  else log ("Top 3 unchanged: " ++ join currentTop3).

(** One iteration of [while (this.isRunning) { try {...} catch {...} }]. *)
Definition tick : M unit :=
  catch (waitForTimeout 5000 ;;
         currentTop3 <- getSimpleTop3Names ;;
         on_snapshot currentTop3)
        (fun msg => log ("Error during monitoring: " ++ msg) ;;
                    waitForTimeout 5000).

(** The [while] loop, observed for at most [fuel] iterations.  A
    rejection escaping an iteration ends the loop (and rejects the
    promise of [startMonitoring]). *)
Fixpoint monitor (fuel : nat) : M unit :=
  match fuel with
  | O => ret tt
  | S f =>
      st <- get ;;
      if isRunning st then tick ;; monitor f else ret tt
  end.

Definition startMonitoring (fuel : nat) : M unit :=
  upd (set_running true) ;;
  log "Starting simple top 3 monitoring..." ;;
  s <- getSimpleTop3Names ;;
  upd (set_saved s) ;;
  log ("Initial top 3: " ++ join s) ;;
  monitor fuel.

End Program.

(* ------------------------------------------------------------------ *)
(** ** [main] *)

(** [process.env.EMAIL_USER], [EMAIL_PASS], [EMAIL_TO] ([None] when unset). *)
Record Config := mkConfig {
  EMAIL_USER : option string;
  EMAIL_PASS : option string;
  EMAIL_TO : option string
}.

(** [!process.env.X] *)
Definition env_missing (v : option string) : bool :=
  match v with
  | Some s => negb (JsString.truthy s)
  | None => true
  end.

(** The awaited steps of [initialize], each of which may reject; the
    [try/catch] of [initialize] and of [waitForAuthentication] log and
    re-throw.  The constructor catches its own errors, the email check
    runs detached under [setImmediate], and [startMonitoring()] is
    started without [await], so none of them rejects into [main]. *)
Inductive InitStep :=
| Launch | NewPage | SetUserAgent | Goto | Title | Wait3000 | PreviewEval
| WaitForAuthentication.

Definition init_steps : list InitStep :=
  [Launch; NewPage; SetUserAgent; Goto; Title; Wait3000; PreviewEval;
   WaitForAuthentication].

Fixpoint run_steps (fails : InitStep -> bool) (steps : list InitStep)
    : result unit :=
  match steps with
  | [] => Ok tt
  | s :: rest => if fails s then Exn "initialization step failed"
                 else run_steps fails rest
  end.

Definition initialize (fails : InitStep -> bool) : result unit :=
  run_steps fails init_steps.

Inductive MainOutcome :=
| ProcessExit (code : nat) (logged : string)
| Started.

Definition main (cfg : Config) (fails : InitStep -> bool) : MainOutcome :=
  let body :=
    if env_missing (EMAIL_USER cfg) || env_missing (EMAIL_PASS cfg)
       || env_missing (EMAIL_TO cfg)
    then Exn "Missing required email configuration. Please check your .env file."
    else initialize fails in
  match body with
  | Ok _ => Started
  | Exn msg => ProcessExit 1 ("Application failed to start: " ++ msg)
  end.

(* ------------------------------------------------------------------ *)
(** ** More string helpers *)

(** [s.split('\n')] *)
Fixpoint split_nl_aux (l : list ascii) (cur : list ascii) : list string :=
  match l with
  | [] => [string_of_list_ascii (List.rev cur)]
  | c :: r =>
      if Ascii.eqb c "010"%char
      then string_of_list_ascii (List.rev cur) :: split_nl_aux r []
      else split_nl_aux r (c :: cur)
  end.

Definition split_nl (s : string) : list string :=
  split_nl_aux (list_ascii_of_string s) [].

(** [s.substring(0, n)] *)
Definition prefix_upto (n : nat) (s : string) : string := String.substring 0 n s.

(** [`${n}`] for a count. *)
Definition of_nat (n : nat) : string := JsString.of_N (N.of_nat n).

(* ------------------------------------------------------------------ *)
(** ** [getTop3Contacts] *)

(** The object built by the function passed to [page.evaluate]. *)
Record ContactInfo := mkContactInfo {
  ci_name : string;
  ci_position : nat;
  ci_allText : string;
  ci_elementHtml : string
}.

(** [contactInfo] after [contactInfo.chatElement = chats[i]]. *)
Record Contact := mkContact {
  c_info : ContactInfo;
  c_chatElement : Node
}.

(** [el.querySelectorAll('[title]')]: descendants of any tag that carry
    a title attribute. *)
Definition with_title (el : Node) : list Elem :=
  filter (fun e => match el_title e with Some _ => true | None => false end) el.

(** [title && title.trim() && !title.includes(':') && title.length > 1] *)
Definition contact_title_ok (title : string) : bool :=
  JsString.truthy title && JsString.truthy (JsString.trim title)
  && negb (JsString.includes title ":") && Nat.ltb 1 (String.length title).

(** Method 1: [for (const titleEl of titleElements) { ...; if (...) {
    name = title.trim(); break; } }], starting from [name = '']. *)
Fixpoint contact_title_loop (els : list Elem) : string :=
  match els with
  | [] => ""
  | e :: rest =>
      let title := title_attr e in
      if contact_title_ok title then JsString.trim title
      else contact_title_loop rest
  end.

(** The guard of Method 2. *)
Definition contact_text_ok (text : string) : bool :=
  JsString.truthy text && JsString.truthy (JsString.trim text)
  && Nat.ltb 1 (String.length text) && Nat.ltb (String.length text) 50
  && negb (JsString.includes text "data-testid")
  && negb (JsString.matches_time text)
  && negb (JsString.includes text "www")
  && negb (JsString.includes text "http").

(** Method 2: [for (const span of spans) { const text = span.textContent ||
    span.innerText; if (...) { name = text.trim(); break; } }] *)
Fixpoint contact_text_loop (spans : list Elem) : string :=
  match spans with
  | [] => ""
  | e :: rest =>
      let text := span_text e in
      if contact_text_ok text then JsString.trim text
      else contact_text_loop rest
  end.

(** [allText.split('\n').filter(line => line.trim())] *)
Definition nonblank_lines (allText : string) : list string :=
  filter (fun line => JsString.truthy (JsString.trim line)) (split_nl allText).

(** The guard of Method 3. *)
Definition line_ok (line : string) : bool :=
  JsString.truthy (JsString.trim line) && Nat.ltb 1 (String.length line)
  && Nat.ltb (String.length line) 50 && negb (JsString.matches_time line).

(** Method 3: [for (const line of lines) { if (...) { name = line.trim();
    break; } }] *)
Fixpoint line_loop (lines : list string) : string :=
  match lines with
  | [] => ""
  | line :: rest =>
      if line_ok line then JsString.trim line else line_loop rest
  end.

(** [`Contact_${index + 1}_${Date.now()}`] *)
Definition contact_fallback (index : nat) (now : N) : string :=
  "Contact_" ++ of_nat (S index) ++ "_" ++ JsString.of_N now.

Section Contacts.

Variable env : Env.
(** [el.innerText], [el.textContent] and [el.outerHTML] of a chat element
    itself (the [Node] gives its descendants). *)
Variable chat_innerText chat_textContent chat_outerHTML : Node -> string.
(** [document.querySelector('#app')?.innerText] at time [t]; [None] when
    there is no [#app] element. *)
Variable app_innerText : N -> option string.

(** The function passed to [page.evaluate] in [getTop3Contacts], run on
    chat [el] with [index] at time [now]; like [extract_label] it also
    returns its [Date.now()] readings. *)
Definition extract_contact (el : Node) (index : nat) (now : N)
    : ContactInfo * list N :=
  let allText :=
    if JsString.truthy (chat_innerText el) then chat_innerText el
    else if JsString.truthy (chat_textContent el) then chat_textContent el
    else "" in
  let name1 := contact_title_loop (with_title el) in
  let name2 :=
    if negb (JsString.truthy name1) then contact_text_loop (all_spans el)
    else name1 in
  let name3 :=
    if negb (JsString.truthy name2) && JsString.truthy allText
    then line_loop (nonblank_lines allText) else name2 in
  let '(name, rds) :=
    if negb (JsString.truthy name3) then (contact_fallback index now, [now])
    else (name3, []) in
  (mkContactInfo name (S index) (prefix_upto 200 allText)
     (prefix_upto 300 (chat_outerHTML el)), rds).

Definition chatListSelectors : list string :=
  [ "[data-testid='chat-list'] div[role='listitem']"
  ; "#pane-side div[role='listitem']"
  ; "[data-testid='side'] div[role='listitem']"
  ; "div[data-testid*='chat']"
  ; "[role='listitem']" ].

Definition broadSelectors : list string :=
  [ "div[tabindex='-1']"
  ; "div[role='grid'] > div"
  ; "#pane-side > div > div > div"
  ; "div[data-testid*='conversation']" ].

(** [chats = await this.page.$$(selector)] in the first loop, which logs
    the selectors that match nothing. *)
Definition qsa_debug (sel : string) : M (list Node) :=
  cs <- qsa env sel ;;
  (if Nat.ltb 0 (List.length cs) then ret tt
   else log ("No chats found with selector: " ++ sel)) ;;
  ret cs.

(** [await this.page.evaluate(fn, chats[i], i)] *)
Definition evaluate_contact (el : Node) (index : nat) : M ContactInfo :=
  r <- page_call env (extract_contact el index) ;;
  upd (add_reads (snd r)) ;;
  ret (fst r).

(** [for (let i = 0; i < Math.min(3, chats.length); i++) {...}] over the
    first [Math.min(3, chats.length)] chats, [i] counting from [0]. *)
Fixpoint contacts_loop (els : list Node) (i : nat) (top3 : list Contact)
    : M (list Contact) :=
  match els with
  | [] => ret top3
  | el :: rest =>
      log ("Extracting info from chat " ++ of_nat (S i) ++ "...") ;;
      contactInfo <- evaluate_contact el i ;;
      log ("Chat " ++ of_nat (S i) ++ ": " ++ ci_name contactInfo) ;;
      log ("Text content: " ++ prefix_upto 100 (ci_allText contactInfo)
           ++ "...") ;;
      contacts_loop rest (S i) (top3 ++ [mkContact contactInfo el])
  end.

(** [document.querySelector('#app')?.innerText?.substring(0, 500) ||
    'No content found'] *)
Definition app_preview (t : N) : string :=
  match app_innerText t with
  | Some s =>
      let p := prefix_upto 500 s in
      if JsString.truthy p then p else "No content found"
  | None => "No content found"
  end.

(** The debugging block run when no chat was found. *)
Definition no_chats_debug : M unit :=
  catch (page_call env (fun _ => tt) ;;
         log "Screenshot saved as debug-no-chats.png" ;;
         pageContent <- page_call env app_preview ;;
         log ("Page content preview: " ++ pageContent))
        (fun msg => log ("Debug screenshot failed: " ++ msg)).

(** The body of the [try] block. *)
Definition top3_contacts_body : M (list Contact) :=
  log "Looking for chat list..." ;;
  waitForTimeout 1000 ;;
  chats <- resolve qsa_debug chatListSelectors [] ;;
  chats <- (if Nat.eqb (List.length chats) 0
            then log "No chats found with standard selectors, trying broader search..." ;;
                 resolve (qsa env) broadSelectors chats
            else ret chats) ;;
  if Nat.eqb (List.length chats) 0
  then log "Could not find any chat elements on the page" ;;
       no_chats_debug ;;
       ret []
  else
    log ("Processing top " ++ of_nat (Nat.min 3 (List.length chats))
         ++ " chats...") ;;
    top3 <- contacts_loop (firstn (Nat.min 3 (List.length chats)) chats) 0 [] ;;
    log ("Successfully extracted top 3 contacts: "
         ++ join (map (fun c => ci_name (c_info c)) top3)) ;;
    ret top3.

Definition getTop3Contacts : M (list Contact) :=
  catch top3_contacts_body
    (fun msg => log ("Error getting top 3 contacts: " ++ msg) ;; ret []).

End Contacts.

(* ------------------------------------------------------------------ *)
(** ** [getContactNameOnly] *)

(** [el.textContent || el.title] ([el.title] is [''] without the
    attribute). *)
Definition text_or_title (e : Elem) : string :=
  if JsString.truthy (el_textContent e) then el_textContent e
  else title_attr e.

Definition nameSelectors : list string :=
  [ "[data-testid='conversation-header'] [data-testid='conversation-info-header-chat-title']"
  ; "[data-testid='conversation-header'] span[title]"
  ; "header span[dir='auto']"
  ; "header [title]" ].

Section Header.

Variable env : Env.
(** [page.$(sel)] on the document at time [t]: the first match, if any. *)
Variable query_one : N -> string -> option Elem.

(** [await this.page.$(selector)] *)
Definition page_dollar (sel : string) : M (option Elem) :=
  page_call env (fun t => query_one t sel).

(** [let contactName = ''; for (const selector of nameSelectors) {
      const nameElement = await this.page.$(selector);
      if (nameElement) { const name = await this.page.evaluate(...);
        if (name && name.trim()) { contactName = name.trim(); break; } } }] *)
Fixpoint header_name_loop (sels : list string) : M string :=
  match sels with
  | [] => ret ""
  | sel :: rest =>
      nameElement <- page_dollar sel ;;
      match nameElement with
      | None => header_name_loop rest
      | Some e =>
          name <- page_call env (fun _ => text_or_title e) ;;
          if JsString.truthy name && JsString.truthy (JsString.trim name)
          then ret (JsString.trim name)
          else header_name_loop rest
      end
  end.

(** The [name] field of the returned object. *)
Definition getContactNameOnly : M string :=
  catch (contactName <- header_name_loop nameSelectors ;;
         ret (if JsString.truthy contactName then contactName
              else "Unknown Contact"))
        (fun msg => log ("Error getting contact name: " ++ msg) ;;
                    ret "Unknown Contact").

End Header.

(* ------------------------------------------------------------------ *)
(** ** The notifier object: e-mail set-up, history file, [stop] *)

(** A nodemailer configuration; [None] for a key the literal omits. *)
Record MailCfg := mkMailCfg {
  mc_host : option string;
  mc_port : option N;
  mc_secure : option bool;
  mc_service : option string;
  mc_user : option string;
  mc_pass : option string;
  mc_connectionTimeout : option N;
  mc_greetingTimeout : option N;
  mc_socketTimeout : option N;
  mc_tls_rejectUnauthorized : option bool
}.

(** The [emailConfigs] literal of [setupEmailTransporter]. *)
Definition email_config_list (user pass : option string)
    : list (string * MailCfg) :=
  [ ("Gmail SMTP (TLS)",
     mkMailCfg (Some "smtp.gmail.com") (Some 587%N) (Some false) None
       user pass (Some 60000%N) (Some 30000%N) (Some 60000%N) (Some false))
  ; ("Gmail SMTP (SSL)",
     mkMailCfg (Some "smtp.gmail.com") (Some 465%N) (Some true) None
       user pass (Some 60000%N) (Some 30000%N) (Some 60000%N) (Some false))
  ; ("Gmail Service",
     mkMailCfg None None None (Some "gmail")
       user pass (Some 60000%N) (Some 30000%N) (Some 60000%N) None) ].

(** The [processed-messages.json] file.  What [saveProcessedMessages]
    writes is [JSON.stringify] of arrays of strings, which [JSON.parse]
    reads back as the same arrays ([Written]); any other content is
    [Foreign]. *)
Inductive HistFile :=
| Written (processed : list string) (states : list (string * string))
          (lastSaved : string)
| Foreign (content : string).

(** What [JSON.parse] and the reads of [data.processedMessages || []] and
    [data.lastMessageStates || []] give on foreign content (items taken
    as strings): a throw before [this.processedMessages] is assigned, a
    throw in [new Map(...)] after it, or both arrays. *)
Inductive Decoded :=
| DecodeFailed (msg : string)
| DecodeSetOnly (processed : list string) (msg : string)
| DecodeOk (processed : list string) (states : list (string * string)).

(** [set.add(x)] on a [Set] of strings kept in insertion order. *)
Definition set_add (s : list string) (x : string) : list string :=
  if existsb (String.eqb x) s then s else (s ++ [x])%list.

(** [new Set(items)] *)
Definition set_of (items : list string) : list string :=
  fold_left set_add items [].

(** [map.set(k, v)] on a [Map] kept in insertion order. *)
Fixpoint map_set (m : list (string * string)) (k v : string)
    : list (string * string) :=
  match m with
  | [] => [(k, v)]
  | (k', v') :: rest =>
      if String.eqb k k' then (k, v) :: rest else (k', v') :: map_set rest k v
  end.

(** [new Map(entries)] *)
Definition map_of (entries : list (string * string)) : list (string * string) :=
  fold_left (fun m kv => map_set m (fst kv) (snd kv)) entries [].

(** The fields of a [WhatsAppEmailNotifier] that the constructor,
    [verifyEmailConnection], the history methods and [stop] use;
    [None] for a field never assigned. *)
Record Notifier := mkNotifier {
  nt_isRunning : bool;
  nt_browser : bool;                            (** [this.browser] is set *)
  nt_emailTransporter : option MailCfg;         (** built from this config *)
  nt_emailConfigs : list (string * MailCfg);
  nt_currentConfigIndex : nat;
  nt_processedMessages : option (list string);
  nt_lastMessageStates : option (list (string * string));
  nt_logs : list string
}.

Definition nt_log (msg : string) (n : Notifier) : Notifier :=
  mkNotifier (nt_isRunning n) (nt_browser n) (nt_emailTransporter n)
    (nt_emailConfigs n) (nt_currentConfigIndex n) (nt_processedMessages n)
    (nt_lastMessageStates n) (nt_logs n ++ [msg]).

Definition nt_set_transport (cfg : MailCfg) (cfgs : list (string * MailCfg))
    (i : nat) (n : Notifier) : Notifier :=
  mkNotifier (nt_isRunning n) (nt_browser n) (Some cfg) cfgs i
    (nt_processedMessages n) (nt_lastMessageStates n) (nt_logs n).

Definition nt_set_history (p : option (list string))
    (s : option (list (string * string))) (n : Notifier) : Notifier :=
  mkNotifier (nt_isRunning n) (nt_browser n) (nt_emailTransporter n)
    (nt_emailConfigs n) (nt_currentConfigIndex n) p s (nt_logs n).

Definition nt_set_running (b : bool) (n : Notifier) : Notifier :=
  mkNotifier b (nt_browser n) (nt_emailTransporter n) (nt_emailConfigs n)
    (nt_currentConfigIndex n) (nt_processedMessages n)
    (nt_lastMessageStates n) (nt_logs n).

Definition setupEmailTransporter (user pass : option string) (n : Notifier)
    : Notifier :=
  let emailConfigs := email_config_list user pass in
  let first := match emailConfigs with
               | (_, c) :: _ => c
               | [] => mkMailCfg None None None None None None None None None None
               end in
  nt_log "Email transporter configured with enhanced Gmail SMTP settings"
    (nt_set_transport first emailConfigs 0 n).

Definition all_failed_lines : list string :=
  [ "All email configurations failed!"
  ; "This appears to be a network connectivity issue. Your firewall, antivirus, or ISP may be blocking SMTP connections."
  ; "Possible solutions:"
  ; "1. Check Windows Firewall settings"
  ; "2. Check antivirus firewall settings"
  ; "3. Try connecting from a different network"
  ; "4. Contact your ISP about SMTP port blocking"
  ; "5. Make sure you have enabled 2-Factor Authentication on Gmail"
  ; "6. Generate an App Password: https://myaccount.google.com/apppasswords"
  ; "7. Use the App Password (not your regular Gmail password) in EMAIL_PASS" ].

Section Verify.

(** [await testTransporter.verify()] for the configuration at index [i]:
    [None] if it resolves, [Some message] if it rejects. *)
Variable verify_error : nat -> option string.

(** [for (let i = 0; i < this.emailConfigs.length; i++) {...}], from
    index [i] on. *)
Fixpoint verify_loop (cfgs : list (string * MailCfg)) (i : nat)
    (n : Notifier) : bool * Notifier :=
  match cfgs with
  | [] => (false, fold_left (fun n msg => nt_log msg n) all_failed_lines n)
  | (name, config) :: rest =>
      let n := nt_log ("Testing " ++ name ++ "...") n in
      match verify_error i with
      | None =>
          let n := nt_log (name ++ " connection verified successfully!") n in
          (true, nt_set_transport config (nt_emailConfigs n) i n)
      | Some msg =>
          verify_loop rest (S i) (nt_log (name ++ " failed: " ++ msg) n)
      end
  end.

Definition verifyEmailConnection (n : Notifier) : bool * Notifier :=
  verify_loop (nt_emailConfigs n) 0 n.

End Verify.

(** Outcome of [fs.writeFileSync(path, data)]: it returns, or it throws
    with a message.  It opens the file with flag ['w'], which empties
    it: a throw before the open ([partial = None]) leaves the file as it
    was, a throw after it (a full disk, an I/O error) leaves the file
    holding the part of [data] written so far ([partial = Some c],
    possibly empty). *)
Inductive WriteOutcome :=
| WriteDone
| WriteThrew (msg : string) (partial : option string).

Section History.

(** [JSON.parse] and the array reads on foreign file content. *)
Variable decode : string -> Decoded.
(** [new Date().toISOString()] when the file is saved. *)
Variable now_iso : string.
(** [fs.writeFileSync] of the history file. *)
Variable write_outcome : WriteOutcome.

Definition loadProcessedMessages (file : option HistFile) (n : Notifier)
    : Notifier :=
  match file with
  | None => nt_log "No previous message history found, starting fresh" n
  | Some f =>
      let data := match f with
                  | Written ps ms _ => DecodeOk ps ms
                  | Foreign s => decode s
                  end in
      match data with
      | DecodeFailed msg => nt_log ("Error loading message history: " ++ msg) n
      | DecodeSetOnly ps msg =>
          nt_log ("Error loading message history: " ++ msg)
            (nt_set_history (Some (set_of ps)) (nt_lastMessageStates n) n)
      | DecodeOk ps ms =>
          let p := set_of ps in
          let s := map_of ms in
          nt_log ("Loaded " ++ of_nat (List.length p) ++
                  " processed messages and " ++ of_nat (List.length s) ++
                  " chat states from history")
            (nt_set_history (Some p) (Some s) n)
      end
  end.

(** [Array.from(this.processedMessages)] and
    [Array.from(this.lastMessageStates.entries())] throw on an
    unassigned field. *)
Definition saveProcessedMessages (file : option HistFile) (n : Notifier)
    : option HistFile * Notifier :=
  match nt_processedMessages n with
  | None =>
      (file, nt_log ("Error saving message history: " ++
                     "undefined is not iterable (cannot read property Symbol(Symbol.iterator))") n)
  | Some ps =>
      match nt_lastMessageStates n with
      | None =>
          (file, nt_log ("Error saving message history: " ++
                         "Cannot read properties of undefined (reading 'entries')") n)
      | Some ms =>
          match write_outcome with
          | WriteThrew msg partial =>
              (match partial with Some c => Some (Foreign c) | None => file end,
               nt_log ("Error saving message history: " ++ msg) n)
          | WriteDone =>
              (Some (Written ps ms now_iso),
               nt_log ("Saved " ++ of_nat (List.length ps) ++
                       " processed messages to history") n)
          end
      end
  end.

(** [new WhatsAppEmailNotifier()] *)
Definition new_notifier (cfg : Config) (file : option HistFile) : Notifier :=
  loadProcessedMessages file
    (setupEmailTransporter (EMAIL_USER cfg) (EMAIL_PASS cfg)
       (mkNotifier false false None [] 0 None None [])).

(** [await notifier.stop()], with [close_error] the outcome of
    [this.browser.close()]. *)
Definition stop (close_error : option string) (file : option HistFile)
    (n : Notifier) : result unit * Notifier * option HistFile :=
  let n := nt_set_running false n in
  let '(file, n) := saveProcessedMessages file n in
  let n := nt_log "Saved processed messages before shutdown" n in
  if nt_browser n then
    match close_error with
    | None => (Ok tt, nt_log "Browser closed" n, file)
    | Some msg => (Exn msg, n, file)
    end
  else (Ok tt, n, file).

End History.

(* ------------------------------------------------------------------ *)
(** ** test-email.js *)

(** The [configs] literal of [testEmail]. *)
Definition test_config_list (user pass : option string)
    : list (string * MailCfg) :=
  [ ("Gmail SMTP (TLS)",
     mkMailCfg (Some "smtp.gmail.com") (Some 587%N) (Some false) None
       user pass None None None None)
  ; ("Gmail SMTP (SSL)",
     mkMailCfg (Some "smtp.gmail.com") (Some 465%N) (Some true) None
       user pass None None None None)
  ; ("Gmail Service",
     mkMailCfg None None None (Some "gmail") user pass None None None None) ].

Definition troubleshooting_lines : list string :=
  [ "All email configurations failed!"
  ; "Troubleshooting steps:"
  ; "1. Make sure you have enabled 2-Factor Authentication on Gmail"
  ; "2. Generate an App Password: https://myaccount.google.com/apppasswords"
  ; "3. Use the App Password (not your regular Gmail password)"
  ; "4. Make sure 'Less secure app access' is enabled if using regular password" ].

Section TestEmail.

(** Outcome of [transporter.verify()] and of [transporter.sendMail(...)]
    for the configuration at index [i], and the [messageId] of an
    accepted mail. *)
Variable verify_error send_error : nat -> option string.
Variable message_id : nat -> string.

(** [for (const { name, config } of configs) { try {...} catch {...} }]
    from index [i]; returns the value of [testEmail()], the indices
    whose test mail was handed to [sendMail], and the console lines. *)
Fixpoint test_loop (cfgs : list (string * MailCfg)) (i : nat)
    (sent : list nat) (out : list string)
    : option MailCfg * list nat * list string :=
  match cfgs with
  | [] => (None, sent, List.app out troubleshooting_lines)
  | (name, config) :: rest =>
      let out := List.app out ["Trying " ++ name ++ "..."] in
      match verify_error i with
      | Some msg => test_loop rest (S i) sent (List.app out [name ++ " failed: " ++ msg])
      | None =>
          let out := List.app out [name ++ " connection successful!"] in
          match send_error i with
          | Some msg =>
              test_loop rest (S i) (List.app sent [i])
                (List.app out [name ++ " failed: " ++ msg])
          | None =>
              (Some config, List.app sent [i],
               List.app out [name ++ " test email sent successfully!";
                             "Message ID: " ++ message_id i])
          end
      end
  end.

Definition testEmail (cfg : Config) : option MailCfg * list nat * list string :=
  test_loop (test_config_list (EMAIL_USER cfg) (EMAIL_PASS cfg)) 0 []
    ["Testing email configuration..."].

End TestEmail.

(* ------------------------------------------------------------------ *)
(** ** server.js *)

(** [/^\+[1-9]\d{1,14}$/.test(s)] *)
Definition phone_test (s : string) : bool :=
  match list_ascii_of_string s with
  | p :: d :: ds =>
      Ascii.eqb p "+" && (Nat.leb 49 (nat_of_ascii d) && Nat.leb (nat_of_ascii d) 57)
      && forallb JsString.is_digit ds
      && Nat.leb 1 (List.length ds) && Nat.leb (List.length ds) 14
  | _ => false
  end.

(** [[^\s@]] *)
Definition email_char (c : ascii) : bool :=
  negb (JsString.is_ws c) && negb (Ascii.eqb c "@").

Fixpoint split_at_sign (l : list ascii) : option (list ascii * list ascii) :=
  match l with
  | [] => None
  | c :: r =>
      if Ascii.eqb c "@" then Some ([], r)
      else match split_at_sign r with
           | Some (a, b) => Some (c :: a, b)
           | None => None
           end
  end.

(** [/^[^\s@]+@[^\s@]+\.[^\s@]+$/.test(s)]: no class matches [@], so the
    [@] of a match is the first one; after it, a [.] with at least one
    character on each side. *)
Definition email_test (s : string) : bool :=
  match split_at_sign (list_ascii_of_string s) with
  | Some (a, r) =>
      Nat.ltb 0 (List.length a) && forallb email_char a && forallb email_char r
      && match r with
         | [] => false
         | _ :: t => existsb (fun c => Ascii.eqb c ".") (removelast t)
         end
  | None => false
  end.

(** Index of the first occurrence of [p] in [s]. *)
Fixpoint find_sub (p s : list ascii) : option nat :=
  if JsString.prefixb p s then Some 0
  else match s with
       | [] => None
       | _ :: s' => option_map S (find_sub p s')
       end.

(** Length of the run matched by [.*]: up to LF or CR. *)
Fixpoint line_len (l : list ascii) : nat :=
  match l with
  | [] => 0
  | c :: r =>
      if Ascii.eqb c "010"%char || Ascii.eqb c "013"%char then 0
      else S (line_len r)
  end.

(** The replacement template of [String.prototype.replace] with no
    capture groups: [$$], [$&], [$`] and [$'] are expanded, any other
    [$] is kept. *)
Fixpoint get_subst (tpl matched pre post : list ascii) : list ascii :=
  match tpl with
  | [] => []
  | c :: tl =>
      match tl with
      | d :: r =>
          if Ascii.eqb c "$" then
            if Ascii.eqb d "$" then "$"%char :: get_subst r matched pre post
            else if Ascii.eqb d "&" then (matched ++ get_subst r matched pre post)%list
            else if Ascii.eqb d "`" then (pre ++ get_subst r matched pre post)%list
            else if Ascii.eqb d "'" then (post ++ get_subst r matched pre post)%list
            else c :: get_subst tl matched pre post
          else c :: get_subst tl matched pre post
      | [] => [c]
      end
  end.

(** [content.replace(/KEY=.*/, repl)] *)
Definition replace_key (key repl content : string) : string :=
  let l := list_ascii_of_string content in
  let p := list_ascii_of_string (key ++ "=") in
  match find_sub p l with
  | None => content
  | Some i =>
      let pre := firstn i l in
      let rest := skipn i l in
      let mlen := List.length p + line_len (skipn (List.length p) rest) in
      let matched := firstn mlen rest in
      let post := skipn mlen rest in
      string_of_list_ascii
        (pre ++ get_subst (list_ascii_of_string repl) matched pre post ++ post)
  end.

(** Lookup in [process.env]. *)
Fixpoint env_get (k : string) (pe : list (string * string)) : option string :=
  match pe with
  | [] => None
  | (k', v) :: rest => if String.eqb k k' then Some v else env_get k rest
  end.

(** Request body of [POST /api/start]: its string fields, [None] when
    absent. *)
Record StartBody := mkStartBody {
  phoneNumber : option string;
  emailAddress : option string
}.

Inductive Reply :=
| JsonResult (status : nat) (success : bool) (message : string)
| JsonStatus (running : bool) (message : string).

(** The module state of server.js and what it has done: [notifier]
    holds the id of the instance (numbered in creation order),
    [pending_init] the [/api/start] handlers awaiting [initialize()]
    (instance, phone, address), [pending_stop] those of [/api/stop]
    awaiting [stop()]; [timers] counts the 3-second timers not yet run;
    [loops] and [stops] list the instances on which [startMonitoring()]
    and [stop()] were called; [exited] is the code of [process.exit]. *)
Record Srv := mkSrv {
  notifier : option nat;
  srv_isRunning : bool;
  env_file : option string;
  penv : list (string * string);
  next_id : nat;
  pending_init : list (nat * string * string);
  pending_stop : list nat;
  timers : nat;
  loops : list nat;
  stops : list nat;
  replies : list Reply;
  exited : option nat
}.

Definition srv_reply (r : Reply) (s : Srv) : Srv :=
  mkSrv (notifier s) (srv_isRunning s) (env_file s) (penv s) (next_id s)
    (pending_init s) (pending_stop s) (timers s) (loops s) (stops s)
    (replies s ++ [r]) (exited s).

Definition srv_set_env (f : option string) (pe : list (string * string))
    (s : Srv) : Srv :=
  mkSrv (notifier s) (srv_isRunning s) f pe (next_id s)
    (pending_init s) (pending_stop s) (timers s) (loops s) (stops s)
    (replies s) (exited s).

Definition srv_set_notifier (o : option nat) (s : Srv) : Srv :=
  mkSrv o (srv_isRunning s) (env_file s) (penv s) (next_id s)
    (pending_init s) (pending_stop s) (timers s) (loops s) (stops s)
    (replies s) (exited s).

Definition srv_set_running (b : bool) (s : Srv) : Srv :=
  mkSrv (notifier s) b (env_file s) (penv s) (next_id s)
    (pending_init s) (pending_stop s) (timers s) (loops s) (stops s)
    (replies s) (exited s).

Definition srv_new_instance (phone email : string) (s : Srv) : Srv :=
  mkSrv (Some (next_id s)) (srv_isRunning s) (env_file s) (penv s)
    (S (next_id s)) (pending_init s ++ [(next_id s, phone, email)])
    (pending_stop s) (timers s) (loops s) (stops s) (replies s) (exited s).

Definition srv_set_pending (pi : list (nat * string * string)) (ps : list nat)
    (s : Srv) : Srv :=
  mkSrv (notifier s) (srv_isRunning s) (env_file s) (penv s) (next_id s)
    pi ps (timers s) (loops s) (stops s) (replies s) (exited s).

Definition srv_set_timers (t : nat) (s : Srv) : Srv :=
  mkSrv (notifier s) (srv_isRunning s) (env_file s) (penv s) (next_id s)
    (pending_init s) (pending_stop s) t (loops s) (stops s) (replies s)
    (exited s).

Definition srv_add_loop (id : nat) (s : Srv) : Srv :=
  mkSrv (notifier s) (srv_isRunning s) (env_file s) (penv s) (next_id s)
    (pending_init s) (pending_stop s) (timers s) (loops s ++ [id]) (stops s)
    (replies s) (exited s).

Definition srv_add_stop (id : nat) (s : Srv) : Srv :=
  mkSrv (notifier s) (srv_isRunning s) (env_file s) (penv s) (next_id s)
    (pending_init s) (pending_stop s) (timers s) (loops s) (stops s ++ [id])
    (replies s) (exited s).

(** [process.exit(code)]; the first exit ends the process. *)
Definition srv_exit (code : nat) (s : Srv) : Srv :=
  match exited s with
  | Some _ => s
  | None =>
      mkSrv (notifier s) (srv_isRunning s) (env_file s) (penv s) (next_id s)
        (pending_init s) (pending_stop s) (timers s) (loops s) (stops s)
        (replies s) (Some code)
  end.

(** [!x] on a body field. *)
Definition field_missing (o : option string) : bool :=
  match o with Some v => negb (JsString.truthy v) | None => true end.

(** A character given by its UTF-8 bytes. *)
Definition utf8 (bytes : list nat) : string :=
  string_of_list_ascii (map ascii_of_nat bytes).

Definition success_message (phone email : string) : string :=
  let nl := String "010"%char "" in
  utf8 [240; 159; 142; 137] ++ " WhatsApp monitoring started successfully!" ++ nl ++ nl ++
  utf8 [240; 159; 147; 177] ++ " Monitoring phone: " ++ phone ++ nl ++
  utf8 [240; 159; 147; 167] ++ " Notifications to: " ++ email ++ nl ++ nl ++
  utf8 [226; 156; 133] ++
  " The system is now active and will send email notifications for new WhatsApp messages." ++
  nl ++ nl ++
  utf8 [240; 159; 147; 139] ++
  " Please scan the QR code in the browser window that opened to connect your WhatsApp account.".

(** The signal listeners, in registration order: server.js requires
    app.js (line 5), which registers its own before server.js does. *)
Inductive Listener := AppSignalHandler | ServerSignalHandler.

Definition server_listeners : list Listener :=
  [AppSignalHandler; ServerSignalHandler].

Inductive Event :=
| PostStart (b : StartBody)      (** a [POST /api/start] request *)
| InitSettled (id : nat)         (** [initialize()] of instance [id] settles *)
| PostStop                       (** a [POST /api/stop] request *)
| StopSettled (id : nat)         (** [stop()] of instance [id] settles *)
| GetStatus                      (** a [GET /api/status] request *)
| TimerFires                     (** a pending 3-second timer runs *)
| Signal.                        (** SIGINT or SIGTERM *)

Section Server.

(** The key/value pairs dotenv reads from a [.env] content. *)
Variable dotenv_parse : string -> list (string * string).
(** [fs.writeFileSync(envPath, envContent)]. *)
Variable env_write : WriteOutcome.
(** Which [initialize] step of instance [id] rejects. *)
Variable init_fails : nat -> InitStep -> bool.
(** Outcome of [stop()] of instance [id]. *)
Variable stop_error : nat -> option string.
(** [global.notifier] of app.js: only [main()] of app.js assigns it,
    and server.js never runs it. *)
Definition global_notifier : option nat := None.

(** [require('dotenv').config()]: keys already in [process.env] are left
    as they are. *)
Definition dotenv_config (content : string) (pe : list (string * string))
    : list (string * string) :=
  fold_left (fun pe kv =>
               match env_get (fst kv) pe with
               | Some _ => pe
               | None => (pe ++ [kv])%list
               end) (dotenv_parse content) pe.

(** [updateEnvConfig(phoneNumber, emailAddress)]; reading a missing
    [.env] throws, and the [catch] returns [false]. *)
Definition updateEnvConfig (phone email : string) (s : Srv) : bool * Srv :=
  match env_file s with
  | None => (false, s)
  | Some envContent =>
      let envContent := replace_key "WHATSAPP_PHONE" ("WHATSAPP_PHONE=" ++ phone) envContent in
      let envContent := replace_key "EMAIL_TO" ("EMAIL_TO=" ++ email) envContent in
      match env_write with
      | WriteDone =>
          (true, srv_set_env (Some envContent) (dotenv_config envContent (penv s)) s)
      | WriteThrew _ (Some c) => (false, srv_set_env (Some c) (penv s) s)
      | WriteThrew _ None => (false, s)
      end
  end.

(** [POST /api/start], up to [await notifier.initialize()]. *)
Definition post_start (b : StartBody) (s : Srv) : Srv :=
  if srv_isRunning s then
    srv_reply (JsonResult 200 false "WhatsApp monitoring is already running!") s
  else if field_missing (phoneNumber b) || field_missing (emailAddress b) then
    srv_reply (JsonResult 400 false "Phone number and email address are required!") s
  else
    let phone := match phoneNumber b with Some p => p | None => "" end in
    let email := match emailAddress b with Some e => e | None => "" end in
    if negb (phone_test phone) then
      srv_reply (JsonResult 400 false "Invalid phone number format. Please use international format (e.g., +905551234567)") s
    else if negb (email_test email) then
      srv_reply (JsonResult 400 false "Invalid email address format!") s
    else
      let '(configUpdated, s) := updateEnvConfig phone email s in
      if negb configUpdated then
        srv_reply (JsonResult 500 false "Failed to update configuration. Please try again.") s
      else srv_new_instance phone email s.

Fixpoint take_pending (id : nat) (l : list (nat * string * string))
    : option (string * string * list (nat * string * string)) :=
  match l with
  | [] => None
  | (i, p, e) :: rest =>
      if Nat.eqb i id then Some (p, e, rest)
      else match take_pending id rest with
           | Some (p', e', rest') => Some (p', e', (i, p, e) :: rest')
           | None => None
           end
  end.

(** The rest of the [/api/start] handler once [initialize()] of [id]
    settles.  [initialize] ends by calling [this.startMonitoring()]
    before it resolves. *)
Definition init_settled (id : nat) (s : Srv) : Srv :=
  match take_pending id (pending_init s) with
  | None => s
  | Some (phone, email, rest) =>
      let s := srv_set_pending rest (pending_stop s) s in
      match initialize (init_fails id) with
      | Ok _ =>
          let s := srv_add_loop id s in
          let s := srv_set_running true s in
          let s := srv_reply (JsonResult 200 true (success_message phone email)) s in
          srv_set_timers (S (timers s)) s
      | Exn msg =>
          srv_reply (JsonResult 500 false ("Failed to start monitoring: " ++ msg)) s
      end
  end.

(** [setTimeout(() => { if (notifier && isRunning)
      notifier.startMonitoring().catch(...) }, 3000)] *)
Definition timer_fires (s : Srv) : Srv :=
  match timers s with
  | O => s
  | S t =>
      let s := srv_set_timers t s in
      match notifier s with
      | Some id => if srv_isRunning s then srv_add_loop id s else s
      | None => s
      end
  end.

(** [POST /api/stop], up to [await notifier.stop()]. *)
Definition post_stop (s : Srv) : Srv :=
  match notifier s with
  | Some id =>
      if srv_isRunning s then
        srv_set_pending (pending_init s) (pending_stop s ++ [id]) (srv_add_stop id s)
      else srv_reply (JsonResult 200 false "No monitoring process is currently running.") s
  | None => srv_reply (JsonResult 200 false "No monitoring process is currently running.") s
  end.

(** Drops the first [id] of the list. *)
Fixpoint remove_first (id : nat) (l : list nat) : list nat :=
  match l with
  | [] => []
  | i :: rest => if Nat.eqb i id then rest else i :: remove_first id rest
  end.

(** The rest of one [/api/stop] handler once its [stop()] of [id]
    settles; each request that passed the check awaits its own call and
    replies on its own. *)
Definition stop_settled (id : nat) (s : Srv) : Srv :=
  if existsb (Nat.eqb id) (pending_stop s) then
    let s := srv_set_pending (pending_init s) (remove_first id (pending_stop s)) s in
    match stop_error id with
    | None =>
        srv_reply (JsonResult 200 true "WhatsApp monitoring stopped successfully!")
          (srv_set_running false (srv_set_notifier None s))
    | Some msg =>
        srv_reply (JsonResult 500 false ("Failed to stop monitoring: " ++ msg)) s
    end
  else s.

Definition get_status (s : Srv) : Srv :=
  srv_reply (JsonStatus (srv_isRunning s)
               (if srv_isRunning s then "WhatsApp monitoring is active"
                else "WhatsApp monitoring is inactive")) s.

(** The listeners run one after the other until one calls
    [process.exit].  app.js's handler exits at once when
    [global.notifier] is unset, and otherwise after [await stop()];
    server.js's handler likewise with [notifier && isRunning].  An exit
    that follows an [await stop()] is reached only if [stop()]
    resolves; a rejection there is unhandled, which ends the process
    with code 1. *)
Fixpoint emit (ls : list Listener) (s : Srv) : Srv :=
  match ls with
  | [] => s
  | l :: rest =>
      match l with
      | AppSignalHandler =>
          match global_notifier with
          | None => srv_exit 0 s
          | Some id =>
              let s := srv_add_stop id s in
              srv_exit (match stop_error id with None => 0 | Some _ => 1 end)
                (emit rest s)
          end
      | ServerSignalHandler =>
          match notifier s with
          | Some id =>
              if srv_isRunning s then
                let s := srv_add_stop id s in
                srv_exit (match stop_error id with None => 0 | Some _ => 1 end)
                  (emit rest s)
              else srv_exit 0 s
          | None => srv_exit 0 s
          end
      end
  end.

(** One event; nothing happens once the process has exited. *)
Definition step (s : Srv) (e : Event) : Srv :=
  match exited s with
  | Some _ => s
  | None =>
      match e with
      | PostStart b => post_start b s
      | InitSettled id => init_settled id s
      | PostStop => post_stop s
      | StopSettled id => stop_settled id s
      | GetStatus => get_status s
      | TimerFires => timer_fires s
      | Signal => emit server_listeners s
      end
  end.

Definition run (s : Srv) (es : list Event) : Srv := fold_left step es s.

(** The state after loading: [require('dotenv').config()] in server.js
    and again in app.js, over the variables the process started with. *)
Definition srv_init (file : option string) (pe0 : list (string * string)) : Srv :=
  let pe := match file with
            | Some c => dotenv_config c (dotenv_config c pe0)
            | None => pe0
            end in
  mkSrv None false file pe 0 [] [] 0 [] [] [] None.

End Server.

(* ================================================================== *)
(** * Properties *)

(* ------------------------------------------------------------------ *)
(** ** The change detector *)

Lemma strict_neq_false x y : strict_neq x y = false <-> x = y.
Proof.
  destruct x as [a|], y as [b|]; simpl; split; intro H; try discriminate;
    try reflexivity.
  - apply negb_false_iff, String.eqb_eq in H. now subst.
  - inversion H; subst. now rewrite String.eqb_refl.
Qed.

Lemma arrays_loop_spec a b i fuel :
  List.length a <= i + fuel ->
  arrays_loop a b i fuel = true <->
  (forall j, i <= j < List.length a -> nth_error a j = nth_error b j).
Proof.
  revert i. induction fuel as [|f IH]; intros i Hle; simpl.
  - split; [intros _ j Hj; lia | reflexivity].
  - destruct (Nat.ltb_spec i (List.length a)) as [Hi|Hi].
    + destruct (strict_neq (nth_error a i) (nth_error b i)) eqn:E.
      * split; [discriminate|]. intro H.
        assert (nth_error a i = nth_error b i) as Hab by (apply H; lia).
        apply strict_neq_false in Hab. congruence.
      * apply strict_neq_false in E.
        rewrite IH by lia. split.
        -- intros H j Hj. destruct (Nat.eq_dec j i) as [->|]; [exact E|].
           apply H; lia.
        -- intros H j Hj. apply H; lia.
    + split; [intros _ j Hj; lia | reflexivity].
Qed.

Lemma arraysEqual_pointwise a b :
  arraysEqual a b = true <->
  List.length a = List.length b /\
  (forall i, i < List.length a -> nth_error a i = nth_error b i).
Proof.
  unfold arraysEqual.
  destruct (Nat.eqb_spec (List.length a) (List.length b)) as [Hl|Hl]; simpl.
  - rewrite arrays_loop_spec by lia. split.
    + intros H. split; [exact Hl|]. intros i Hi. apply H; lia.
    + intros [_ H] j Hj. apply H; lia.
  - split; [discriminate | intros [H _]; contradiction].
Qed.

Lemma arraysEqual_iff a b : arraysEqual a b = true <-> a = b.
Proof.
  rewrite arraysEqual_pointwise. split.
  - intros [Hl H]. apply nth_error_ext. intro i.
    destruct (Nat.lt_ge_cases i (List.length a)) as [Hi|Hi].
    + now apply H.
    + rewrite (proj2 (nth_error_None a i)) by lia.
      rewrite (proj2 (nth_error_None b i)) by lia. reflexivity.
  - intros ->. split; reflexivity.
Qed.

(** C2: [arraysEqual] is length equality followed by position-wise
    string equality, with no normalization; it is reflexive, symmetric,
    and false on equal-length arrays that differ at some position. *)
Theorem arraysEqual_correct :
  (forall a b, arraysEqual a b = true <->
     List.length a = List.length b /\
     (forall i, i < List.length a -> nth_error a i = nth_error b i)) /\
  (forall a b, arraysEqual a b = true <-> a = b) /\
  (forall a, arraysEqual a a = true) /\
  (forall a b, arraysEqual a b = arraysEqual b a) /\
  (forall a b i, List.length a = List.length b -> i < List.length a ->
     nth_error a i <> nth_error b i -> arraysEqual a b = false).
Proof.
  split; [exact arraysEqual_pointwise|].
  split; [exact arraysEqual_iff|].
  split; [intro a; now apply arraysEqual_iff|].
  split.
  - intros a b. destruct (arraysEqual a b) eqn:E1, (arraysEqual b a) eqn:E2;
      try reflexivity.
    + apply arraysEqual_iff in E1. subst.
      rewrite (proj2 (arraysEqual_iff b b) eq_refl) in E2. discriminate.
    + apply arraysEqual_iff in E2. subst.
      rewrite (proj2 (arraysEqual_iff a a) eq_refl) in E1. discriminate.
  - intros a b i Hl Hi Hne. destruct (arraysEqual a b) eqn:E; [|reflexivity].
    apply arraysEqual_pointwise in E. exfalso. apply Hne, E, Hi.
Qed.

(** Case sensitivity: [arraysEqual] distinguishes names by case. *)
Example arraysEqual_case : arraysEqual ["Alice"] ["alice"] = false.
Proof. reflexivity. Qed.

(* ------------------------------------------------------------------ *)
(** ** Monad lemmas *)

Lemma bind_Ok_inv {A B} (m : M A) (k : A -> M B) st b st' :
  bind m k st = (Ok b, st') ->
  exists a st1, m st = (Ok a, st1) /\ k a st1 = (Ok b, st').
Proof.
  unfold bind. destruct (m st) as [[a|e] st1]; intro H; [eauto|discriminate].
Qed.

Lemma bind_Exn_inv {A B} (m : M A) (k : A -> M B) st e st' :
  bind m k st = (Exn e, st') ->
  m st = (Exn e, st') \/
  exists a st1, m st = (Ok a, st1) /\ k a st1 = (Exn e, st').
Proof.
  unfold bind. destruct (m st) as [[a|e'] st1]; intro H; [right; eauto|].
  left. inversion H; subst. reflexivity.
Qed.

(** Actions that leave the notifier's fields and the mail traffic alone
    and never move the clock backwards. *)
Definition Frame {A} (m : M A) : Prop :=
  forall st r st', m st = (r, st') ->
    (clock st <= clock st')%N /\ isRunning st' = isRunning st /\
    savedTop3 st' = savedTop3 st /\ outbox st' = outbox st /\
    delivered st' = delivered st.

(** Actions that never move the clock backwards. *)
Definition Mono {A} (m : M A) : Prop :=
  forall st r st', m st = (r, st') -> (clock st <= clock st')%N.

Create HintDb frame.

Lemma Frame_Mono {A} (m : M A) : Frame m -> Mono m.
Proof. intros H st r st' E. now apply (H st r st'). Qed.

Lemma Frame_ret {A} (a : A) : Frame (ret a).
Proof. intros st r st' E. inversion E; subst. repeat split; lia. Qed.

Lemma Frame_bind {A B} (m : M A) (k : A -> M B) :
  Frame m -> (forall a, Frame (k a)) -> Frame (bind m k).
Proof.
  intros Hm Hk st r st' E. unfold bind in E.
  destruct (m st) as [[a|e] st1] eqn:Em.
  - destruct (Hm _ _ _ Em) as (? & ? & ? & ? & ?).
    destruct (Hk a _ _ _ E) as (? & ? & ? & ? & ?).
    repeat split; congruence || lia.
  - inversion E; subst. exact (Hm _ _ _ Em).
Qed.

Lemma Frame_catch {A} (m : M A) (h : string -> M A) :
  Frame m -> (forall e, Frame (h e)) -> Frame (catch m h).
Proof.
  intros Hm Hh st r st' E. unfold catch in E.
  destruct (m st) as [[a|e] st1] eqn:Em.
  - inversion E; subst. exact (Hm _ _ _ Em).
  - destruct (Hm _ _ _ Em) as (? & ? & ? & ? & ?).
    destruct (Hh e _ _ _ E) as (? & ? & ? & ? & ?).
    repeat split; congruence || lia.
Qed.

Lemma Frame_log msg : Frame (log msg).
Proof. intros st r st' E. inversion E; subst. repeat split; simpl; lia. Qed.

Lemma Frame_reads r : Frame (upd (add_reads r)).
Proof. intros st r' st' E. inversion E; subst. repeat split; simpl; lia. Qed.

Lemma Frame_page_call env {A} (f : N -> A) : Frame (page_call env f).
Proof.
  intros st r st' E. unfold page_call in E.
  destruct (env_fails env (ncalls st)); inversion E; subst;
    repeat split; simpl; lia.
Qed.

Lemma Frame_wait d : Frame (waitForTimeout d).
Proof.
  intros st r st' E. unfold waitForTimeout in E.
  inversion E; subst; repeat split; simpl; lia.
Qed.

#[local] Hint Resolve Frame_ret Frame_bind Frame_catch Frame_log Frame_reads
  Frame_page_call Frame_wait : frame.

Lemma Frame_evaluate_label env el : Frame (evaluate_label env el).
Proof. unfold evaluate_label. eauto with frame. Qed.

Lemma Frame_qsa env sel : Frame (qsa env sel).
Proof. unfold qsa. eauto with frame. Qed.

#[local] Hint Resolve Frame_evaluate_label Frame_qsa : frame.

Lemma Frame_resolve q sels chats :
  (forall s, Frame (q s)) -> Frame (resolve q sels chats).
Proof.
  intro Hq. revert chats. induction sels as [|s rest IH]; intro chats; simpl.
  - eauto with frame.
  - apply Frame_bind; [apply Hq|]. intro cs.
    destruct (Nat.ltb 0 (List.length cs)); eauto with frame.
Qed.

Lemma Frame_name_loop env els acc : Frame (name_loop env els acc).
Proof.
  revert acc. induction els as [|el rest IH]; intro acc; simpl;
    eauto with frame.
Qed.

#[local] Hint Resolve Frame_resolve Frame_name_loop : frame.

Lemma Frame_top3_body env : Frame (top3_body env).
Proof.
  unfold top3_body, top3_after_wait. apply Frame_bind; [eauto with frame|]. intros _.
  apply Frame_bind; [eauto with frame|]. intro chats.
  destruct (Nat.eqb (List.length chats) 0); eauto with frame.
Qed.

Lemma Frame_getSimpleTop3Names env : Frame (getSimpleTop3Names env).
Proof. unfold getSimpleTop3Names. pose proof (Frame_top3_body env). eauto with frame. Qed.

(* ------------------------------------------------------------------ *)
(** ** The snapshot extractor *)

Lemma name_loop_length env els acc st r st' :
  name_loop env els acc st = (Ok r, st') ->
  List.length r = List.length acc + List.length els.
Proof.
  revert acc st. induction els as [|el rest IH]; intros acc st E; simpl in *.
  - inversion E; subst. lia.
  - apply bind_Ok_inv in E as (name & st1 & _ & E).
    apply IH in E. rewrite length_app in E. simpl in E. lia.
Qed.

Lemma pad_loop_spec fuel l :
  3 - List.length l <= fuel ->
  pad_loop fuel l = (l ++ repeat "" (3 - List.length l))%list.
Proof.
  revert l. induction fuel as [|f IH]; intros l H; cbn [pad_loop].
  - replace (3 - List.length l) with 0 by lia. simpl. now rewrite app_nil_r.
  - destruct (Nat.ltb_spec (List.length l) 3) as [Hl|Hl].
    + rewrite IH by (rewrite length_app; change (List.length [""]) with 1; lia).
      rewrite length_app, <- app_assoc. change (List.length [""]) with 1.
      replace (3 - List.length l) with (S (3 - (List.length l + 1))) by lia.
      reflexivity.
    + replace (3 - List.length l) with 0 by lia. simpl. now rewrite app_nil_r.
Qed.

Lemma padded_length (labels : list string) :
  List.length labels <= 3 ->
  List.length ((labels ++ repeat "" (3 - List.length labels))%list) = 3.
Proof. intro H. rewrite length_app, repeat_length. lia. Qed.

Lemma top3_body_Ok_shape env st names st' :
  top3_body env st = (Ok names, st') ->
  exists st1 chats st2,
    waitForTimeout 1000 st = (Ok tt, st1) /\
    resolve (qsa env) chatSelectors [] st1 = (Ok chats, st2) /\
    ((chats = [] /\ names = no_chats_snapshot) \/
     (chats <> [] /\ exists labels,
        List.length labels = Nat.min 3 (List.length chats) /\
        names = (labels ++ repeat "" (3 - List.length labels))%list)).
Proof.
  unfold top3_body, top3_after_wait. intro E.
  apply bind_Ok_inv in E as ([] & st1 & Hw & E).
  apply bind_Ok_inv in E as (chats & st2 & Hr & E).
  exists st1, chats, st2. split; [exact Hw|]. split; [exact Hr|].
  destruct (Nat.eqb_spec (List.length chats) 0) as [H0|H0].
  - left. split; [now destruct chats|]. inversion E. reflexivity.
  - right. split; [intros ->; contradiction|].
    apply bind_Ok_inv in E as (labels & st3 & Hn & E).
    assert (names = firstn 3 (pad_loop 3 labels)) as ->.
    { change (ret (firstn 3 (pad_loop 3 labels)) st3 = (Ok names, st')) in E.
      unfold ret in E. congruence. }
    apply name_loop_length in Hn. rewrite length_firstn in Hn.
    change (List.length (@nil string)) with 0 in Hn.
    exists labels. split; [lia|].
    rewrite pad_loop_spec by lia. rewrite firstn_all2; [reflexivity|].
    rewrite padded_length; lia.
Qed.

(** C1: [getSimpleTop3Names] always resolves (never rejects) to an array
    of exactly 3 strings, whatever the page answers: if a selector
    matched [k >= 1] chats, it holds the [min 3 k] extracted labels
    padded with empty strings (or the error sentinel when a later page
    call rejects); if no selector matched, the [No chats found] snapshot
    padded with empty strings; if the body raised, the [Error]
    sentinel snapshot. *)
Theorem getSimpleTop3Names_three env st :
  exists names st',
    getSimpleTop3Names env st = (Ok names, st') /\
    List.length names = 3 /\
    (forall e st1, top3_body env st = (Exn e, st1) ->
       names = error_snapshot) /\
    (forall st1 st2, waitForTimeout 1000 st = (Ok tt, st1) ->
       resolve (qsa env) chatSelectors [] st1 = (Ok [], st2) ->
       names = no_chats_snapshot) /\
    (forall st1 chats st2, waitForTimeout 1000 st = (Ok tt, st1) ->
       resolve (qsa env) chatSelectors [] st1 = (Ok chats, st2) ->
       chats <> [] ->
       names = error_snapshot \/
       exists labels, List.length labels = Nat.min 3 (List.length chats) /\
         names = (labels ++ repeat "" (3 - List.length labels))%list).
Proof.
  unfold getSimpleTop3Names, catch.
  destruct (top3_body env st) as [[names|e] st'] eqn:Eb.
  - exists names, st'. split; [reflexivity|].
    destruct (top3_body_Ok_shape _ _ _ _ Eb)
      as (st1 & chats & st2 & Hw & Hr & Hs).
    split; [|split; [|split]].
    + destruct Hs as [[_ ->]|[_ (labels & Hl & ->)]]; [reflexivity|].
      apply padded_length. lia.
    + intros e st3 E. discriminate.
    + intros st1' st2' Hw' Hr'. rewrite Hw in Hw'. inversion Hw'; subst.
      rewrite Hr in Hr'. inversion Hr'; subst.
      destruct Hs as [[_ ->]|[Hne _]]; [reflexivity|congruence].
    + intros st1' chats' st2' Hw' Hr' Hne. rewrite Hw in Hw'.
      inversion Hw'; subst. rewrite Hr in Hr'. inversion Hr'; subst.
      right. destruct Hs as [[-> _]|[_ H]]; [congruence|exact H].
  - eexists _, _. split; [reflexivity|].
    split; [reflexivity|]. split; [intros; reflexivity|].
    split; [|intros; now left].
    intros st1 st2 Hw Hr. exfalso.
    unfold top3_body, top3_after_wait, bind in Eb. rewrite Hw, Hr in Eb.
    discriminate.
Qed.

(* ------------------------------------------------------------------ *)
(** ** The selector fallback loop *)

(** C5: over any selector chain and any document (a query without side
    effects), the fallback loop returns the whole result of the first
    selector that matches one or more nodes, and the empty result
    (NotFound) when none matches. *)
Theorem resolve_first_match (doc : string -> list Node) chain st :
  exists chats st',
    resolve (fun s => ret (doc s)) chain [] st = (Ok chats, st') /\
    ((Forall (fun s => doc s = []) chain /\ chats = []) \/
     (exists pre s post, chain = (pre ++ s :: post)%list /\
        Forall (fun s => doc s = []) pre /\ doc s <> [] /\ chats = doc s)).
Proof.
  revert st. induction chain as [|s rest IH]; intro st.
  - exists [], st. split; [reflexivity|]. left. split; constructor.
  - cbn [resolve]. unfold bind at 1, ret at 1.
    destruct (doc s) as [|n ns] eqn:Ed.
    + cbn [List.length Nat.ltb Nat.leb].
      destruct (IH st) as (chats & st' & Hr & H).
      exists chats, st'. split; [exact Hr|].
      destruct H as [[Hall ->]|(pre & s' & post & -> & Hpre & Hs & ->)].
      * left. split; [constructor; assumption | reflexivity].
      * right. exists (s :: pre), s', post.
        split; [reflexivity|]. split; [constructor; assumption|].
        split; [exact Hs | reflexivity].
    + cbn [List.length Nat.ltb Nat.leb].
      eexists _, _. split; [reflexivity|]. right.
      exists [], s, rest. split; [reflexivity|]. split; [constructor|].
      split; [rewrite Ed; discriminate | symmetry; exact Ed].
Qed.

(** The scenario of the specification: [s1] matches nothing, [s2] two
    nodes, [s3] one node; the two nodes of [s2] are returned. *)
Example resolve_scenario (n1 n2 n3 : Node) :
  exists st',
    resolve (fun s => ret (if String.eqb s "s2" then [n1; n2]
                           else if String.eqb s "s3" then [n3] else []))
      ["s1"; "s2"; "s3"] [] (mkSt 0 0 true [] [] [] [] []) = (Ok [n1; n2], st').
Proof. eexists. reflexivity. Qed.

(* ------------------------------------------------------------------ *)
(** ** The label of one chat entry *)

(** The label rule in the words of the specification, to compare with
    [extract_label]: (a) first descendant with a title attribute whose
    trimmed value has length in (1, 50); (b) else first descendant span
    whose trimmed text has length in (1, 50), is no HH:MM time and
    contains no URL; (c) else the placeholder. *)
Definition spec_label (el : Node) (now : N) : string :=
  let len_ok s := Nat.ltb 1 (String.length s) && Nat.ltb (String.length s) 50 in
  match find (fun e => match el_title e with
                       | Some t => len_ok (JsString.trim t)
                       | None => false end) el with
  | Some e => JsString.trim (title_attr e)
  | None =>
      match find (fun e => let t := JsString.trim (span_text e) in
                           len_ok t && negb (JsString.matches_time t)
                           && negb (JsString.includes t "http"))
                 (all_spans el) with
      | Some e => JsString.trim (span_text e)
      | None => placeholder now
      end
  end.

Definition padded_title_entry : Node := [mkElem "span" (Some " a ") "" ""].
Definition div_title_entry : Node :=
  [mkElem "div" (Some "Alice") "" ""; mkElem "span" None "Bob" "Bob"].

(** C4 (counterexample): a span titled [" a "] (trimmed length 1, raw
    length 3) is labelled ["a"] by the code, and a [div] titled
    ["Alice"] is skipped in favour of a later span's text. *)
Lemma label_priority_counterexample :
  fst (extract_label padded_title_entry 0) = "a" /\
  spec_label padded_title_entry 0 = placeholder 0 /\
  fst (extract_label div_title_entry 0) = "Bob" /\
  spec_label div_title_entry 0 = "Alice".
Proof. vm_compute. repeat split. Qed.

(** A loop [for (x of l) if (ok(x)) return out(x); return none;] returns
    the result of the first element that passes. *)
Lemma first_pass_split {X Y} (ok : X -> bool) (out : X -> Y)
    (loop : list X -> option Y) :
  loop [] = None ->
  (forall x r, loop (x :: r) = if ok x then Some (out x) else loop r) ->
  forall l,
    (exists pre x post, l = (pre ++ x :: post)%list /\
       Forall (fun y => ok y = false) pre /\ ok x = true /\
       loop l = Some (out x)) \/
    (Forall (fun y => ok y = false) l /\ loop l = None).
Proof.
  intros Hnil Hcons l. induction l as [|x r IH].
  - right. split; [constructor | exact Hnil].
  - rewrite Hcons. destruct (ok x) eqn:Ex.
    + left. exists [], x, r. repeat split; [constructor | exact Ex].
    + destruct IH as [(pre & y & post & -> & Hpre & Hy & Hl)|[Hall Hl]].
      * left. exists (x :: pre), y, post. repeat split; auto.
      * right. split; [constructor; assumption | exact Hl].
Qed.

Lemma title_ok_iff t :
  title_ok t = true <->
  JsString.trim t <> "" /\ 1 < String.length t < 50.
Proof.
  unfold title_ok, JsString.truthy.
  rewrite !andb_true_iff, !negb_true_iff, !Nat.ltb_lt, !String.eqb_neq.
  split.
  - intros [[[_ H1] H2] H3]. auto.
  - intros [H1 [H2 H3]]. repeat split; auto.
    intros ->. simpl in H2. lia.
Qed.

Lemma text_ok_iff t :
  text_ok t = true <->
  JsString.trim t <> "" /\ 1 < String.length t < 50 /\
  JsString.matches_time t = false /\ JsString.includes t "http" = false.
Proof.
  unfold text_ok, JsString.truthy.
  rewrite !andb_true_iff, !negb_true_iff, !Nat.ltb_lt, !String.eqb_neq.
  split.
  - intros [[[[[_ H1] H2] H3] H4] H5]. auto.
  - intros [H1 [[H2 H3] [H4 H5]]]. repeat split; auto.
    intros ->. simpl in H2. lia.
Qed.

Lemma name_loop_labels env els acc st labels st' :
  name_loop env els acc st = (Ok labels, st') ->
  exists ls, labels = (acc ++ ls)%list /\
    Forall2 (fun el l => exists now, l = fst (extract_label el now)) els ls.
Proof.
  revert acc st. induction els as [|el rest IH]; intros acc st E; simpl in E.
  - inversion E; subst. exists []. split; [now rewrite app_nil_r | constructor].
  - apply bind_Ok_inv in E as (name & st1 & Hev & E).
    apply IH in E as (ls & -> & Hls). exists (name :: ls).
    split; [now rewrite <- app_assoc|]. constructor; [|exact Hls].
    unfold evaluate_label in Hev.
    apply bind_Ok_inv in Hev as (r & st2 & Hp & Hev).
    apply bind_Ok_inv in Hev as (u & st3 & _ & Hev).
    inversion Hev; subst. unfold page_call in Hp.
    destruct (env_fails env (ncalls st)); inversion Hp; subst.
    exists (clock st). reflexivity.
Qed.

(** C4 (amended): each of the first [min(3, matches)] entries is
    labelled, in order, by the in-page function; its label is (a) the
    trimmed title of the first [span] carrying a title attribute whose
    title trims to a non-empty string and whose untrimmed length is
    strictly between 1 and 50; else (b) the trimmed text
    ([textContent], or [innerText] when it is empty) of the first
    [span] whose text trims to a non-empty string, has untrimmed length
    strictly between 1 and 50, does not match [^\d{1,2}:\d{2}$] and does
    not contain ["http"]; else (c) ["Contact "] followed by the time. *)
Theorem label_priority_amended :
  (forall env chats st labels st',
     name_loop env (firstn (Nat.min 3 (List.length chats)) chats) [] st
       = (Ok labels, st') ->
     Forall2 (fun el l => exists now, l = fst (extract_label el now))
       (firstn (Nat.min 3 (List.length chats)) chats) labels) /\
  (forall t, title_ok t = true <->
     JsString.trim t <> "" /\ 1 < String.length t < 50) /\
  (forall t, text_ok t = true <->
     JsString.trim t <> "" /\ 1 < String.length t < 50 /\
     JsString.matches_time t = false /\ JsString.includes t "http" = false) /\
  (forall el now,
     (exists pre e post, spans_with_title el = (pre ++ e :: post)%list /\
        Forall (fun e => title_ok (title_attr e) = false) pre /\
        title_ok (title_attr e) = true /\
        fst (extract_label el now) = JsString.trim (title_attr e)) \/
     (Forall (fun e => title_ok (title_attr e) = false) (spans_with_title el) /\
      ((exists pre e post, all_spans el = (pre ++ e :: post)%list /\
          Forall (fun e => text_ok (span_text e) = false) pre /\
          text_ok (span_text e) = true /\
          fst (extract_label el now) = JsString.trim (span_text e)) \/
       (Forall (fun e => text_ok (span_text e) = false) (all_spans el) /\
        fst (extract_label el now) = placeholder now)))).
Proof.
  split.
  { intros env chats st labels st' E.
    apply name_loop_labels in E as (ls & -> & H). exact H. }
  split; [exact title_ok_iff|]. split; [exact text_ok_iff|].
  intros el now. unfold extract_label.
  destruct (first_pass_split (fun e => title_ok (title_attr e))
              (fun e => JsString.trim (title_attr e)) title_loop
              eq_refl (fun x r => eq_refl) (spans_with_title el))
    as [(pre & e & post & Hl & Hpre & He & ->)|[Hall ->]].
  - left. exists pre, e, post. auto.
  - right. split; [exact Hall|].
    destruct (first_pass_split (fun e => text_ok (span_text e))
                (fun e => JsString.trim (span_text e)) text_loop
                eq_refl (fun x r => eq_refl) (all_spans el))
      as [(pre & e & post & Hl & Hpre & He & ->)|[Hall' ->]].
    + left. exists pre, e, post. auto.
    + right. auto.
Qed.

(* ------------------------------------------------------------------ *)
(** ** Placeholders and the clock *)

Lemma to_uint_not_nil n : N.to_uint n <> Nil.
Proof.
  intro H. pose proof (Unsigned.of_to n) as E. rewrite H in E.
  simpl in E. subst n. discriminate H.
Qed.

Lemma of_N_inj a b : JsString.of_N a = JsString.of_N b -> a = b.
Proof.
  unfold JsString.of_N. intro H.
  pose proof (NilZero.usu _ (to_uint_not_nil a)) as Ha.
  pose proof (NilZero.usu _ (to_uint_not_nil b)) as Hb.
  rewrite H, Hb in Ha. injection Ha as Ha.
  now apply Unsigned.to_uint_inj.
Qed.

Lemma placeholder_inj a b : placeholder a = placeholder b -> a = b.
Proof.
  unfold placeholder. simpl. intro H.
  repeat match goal with
         | H : String _ _ = String _ _ |- _ => injection H as H
         end.
  now apply of_N_inj.
Qed.

(** Actions whose [Date.now()] readings are taken between their start
    and their end, on a clock that never goes back. *)
Definition Stamped {A} (m : M A) : Prop :=
  forall st r st', m st = (r, st') ->
    (clock st <= clock st')%N /\
    exists new, reads st' = (reads st ++ new)%list /\
      Forall (fun t => clock st <= t <= clock st')%N new.

Create HintDb stamped.

Lemma Stamped_ret {A} (a : A) : Stamped (ret a).
Proof.
  intros st r st' E. inversion E; subst. split; [lia|].
  exists []. rewrite app_nil_r. auto.
Qed.

Lemma Stamped_bind {A B} (m : M A) (k : A -> M B) :
  Stamped m -> (forall a, Stamped (k a)) -> Stamped (bind m k).
Proof.
  intros Hm Hk st r st' E. unfold bind in E.
  destruct (m st) as [[a|e] st1] eqn:Em.
  - destruct (Hm _ _ _ Em) as (H1 & n1 & R1 & F1).
    destruct (Hk a _ _ _ E) as (H2 & n2 & R2 & F2).
    split; [lia|]. exists (n1 ++ n2)%list.
    rewrite R2, R1, app_assoc. split; [reflexivity|].
    apply Forall_app. split.
    + eapply Forall_impl; [|exact F1]. simpl. lia.
    + eapply Forall_impl; [|exact F2]. simpl. lia.
  - inversion E; subst. exact (Hm _ _ _ Em).
Qed.

Lemma Stamped_catch {A} (m : M A) (h : string -> M A) :
  Stamped m -> (forall e, Stamped (h e)) -> Stamped (catch m h).
Proof.
  intros Hm Hh st r st' E. unfold catch in E.
  destruct (m st) as [[a|e] st1] eqn:Em.
  - inversion E; subst. exact (Hm _ _ _ Em).
  - destruct (Hm _ _ _ Em) as (H1 & n1 & R1 & F1).
    destruct (Hh e _ _ _ E) as (H2 & n2 & R2 & F2).
    split; [lia|]. exists (n1 ++ n2)%list.
    rewrite R2, R1, app_assoc. split; [reflexivity|].
    apply Forall_app. split.
    + eapply Forall_impl; [|exact F1]. simpl. lia.
    + eapply Forall_impl; [|exact F2]. simpl. lia.
Qed.

Lemma Stamped_log msg : Stamped (log msg).
Proof.
  intros st r st' E. inversion E; subst. simpl. split; [lia|].
  exists []. rewrite app_nil_r. auto.
Qed.

Lemma Stamped_page_call env {A} (f : N -> A) : Stamped (page_call env f).
Proof.
  intros st r st' E. unfold page_call in E.
  destruct (env_fails env (ncalls st)); inversion E; subst; simpl;
    (split; [lia|]); exists []; rewrite app_nil_r; auto.
Qed.

Lemma Stamped_wait d : Stamped (waitForTimeout d).
Proof.
  intros st r st' E. unfold waitForTimeout in E.
  inversion E; subst; simpl;
    (split; [lia|]); exists []; rewrite app_nil_r; auto.
Qed.

Lemma Stamped_evaluate_label env el : Stamped (evaluate_label env el).
Proof.
  intros st r st' E. unfold evaluate_label, page_call, bind in E.
  destruct (env_fails env (ncalls st)).
  - inversion E; subst; simpl. split; [lia|].
    exists []. rewrite app_nil_r. auto.
  - cbn in E. inversion E; subst; simpl. split; [lia|].
    exists (snd (extract_label el (clock st))). split; [reflexivity|].
    unfold extract_label.
    destruct (title_loop (spans_with_title el)); [constructor|].
    destruct (text_loop (all_spans el)); [constructor|].
    constructor; [simpl; lia | constructor].
Qed.

#[local] Hint Resolve Stamped_ret Stamped_bind Stamped_catch Stamped_log
  Stamped_page_call Stamped_wait Stamped_evaluate_label : stamped.

Lemma Stamped_resolve q sels chats :
  (forall s, Stamped (q s)) -> Stamped (resolve q sels chats).
Proof.
  intro Hq. revert chats. induction sels as [|s rest IH]; intro chats; simpl.
  - eauto with stamped.
  - apply Stamped_bind; [apply Hq|]. intro cs.
    destruct (Nat.ltb 0 (List.length cs)); eauto with stamped.
Qed.

Lemma Stamped_name_loop env els acc : Stamped (name_loop env els acc).
Proof.
  revert acc. induction els as [|el rest IH]; intro acc; simpl;
    eauto with stamped.
Qed.

Lemma Stamped_top3_after_wait env : Stamped (top3_after_wait env).
Proof.
  unfold top3_after_wait. apply Stamped_bind.
  - apply Stamped_resolve. intro s. unfold qsa. eauto with stamped.
  - intro chats. destruct (Nat.eqb (List.length chats) 0).
    + eauto with stamped.
    + apply Stamped_bind; [apply Stamped_name_loop|]. eauto with stamped.
Qed.

(** Every [Date.now()] reading of an extraction comes at least one
    second (the leading [waitForTimeout(1000)]) after the extraction
    started, and not after it ended. *)
Lemma extraction_reads env st r st' :
  getSimpleTop3Names env st = (r, st') ->
  (clock st <= clock st')%N /\
  exists new, reads st' = (reads st ++ new)%list /\
    Forall (fun t => clock st + 1000 <= t <= clock st')%N new.
Proof.
  unfold getSimpleTop3Names, catch, top3_body, bind at 1.
  unfold waitForTimeout at 1.
  set (st1 := set_clock_calls (clock st + 1000) (S (ncalls st)) st).
  destruct (top3_after_wait env st1) as [[a|e] st2] eqn:E2;
    intro E; inversion E; subst;
    destruct (Stamped_top3_after_wait env _ _ _ E2) as (H1 & n & R & F);
    simpl in *; split; try lia; exists n; split; auto;
    eapply Forall_impl; try exact F; simpl; lia.
Qed.

(** C8: a fallback label is ["Contact "] followed by the [Date.now()]
    reading it records; for two extractions, the second starting after
    the first ended (as consecutive extractions of the poll loop do),
    no placeholder of the first equals a placeholder of the second. *)
Theorem placeholders_unique env st1 r1 st1' st2 r2 st2' new1 new2 :
  getSimpleTop3Names env st1 = (r1, st1') ->
  getSimpleTop3Names env st2 = (r2, st2') ->
  (clock st1' <= clock st2)%N ->
  reads st1' = (reads st1 ++ new1)%list ->
  reads st2' = (reads st2 ++ new2)%list ->
  (forall el now, snd (extract_label el now) <> [] ->
     snd (extract_label el now) = [now] /\
     fst (extract_label el now) = placeholder now) /\
  (forall t1 t2, In t1 new1 -> In t2 new2 -> placeholder t1 <> placeholder t2).
Proof.
  intros E1 E2 Hle R1 R2. split.
  - intros el now. unfold extract_label.
    destruct (title_loop (spans_with_title el)); [simpl; congruence|].
    destruct (text_loop (all_spans el)); [simpl; congruence|]. auto.
  - destruct (extraction_reads _ _ _ _ E1) as (_ & n1 & R1' & F1).
    destruct (extraction_reads _ _ _ _ E2) as (_ & n2 & R2' & F2).
    rewrite R1 in R1'. apply app_inv_head in R1'. subst n1.
    rewrite R2 in R2'. apply app_inv_head in R2'. subst n2.
    intros t1 t2 I1 I2 Hp. apply placeholder_inj in Hp. subst t2.
    rewrite Forall_forall in F1, F2.
    specialize (F1 _ I1). specialize (F2 _ I2). lia.
Qed.

Definition ph_env : Env :=
  mkEnv (fun _ => false) (fun _ => 10%N)
    (fun _ s => if String.eqb s "div[role='listitem']" then [[]; []] else [])
    (fun _ => false).
Definition ph_st0 : St := mkSt 0 0 true [] [] [] [] [].
Definition ph_ext1 := getSimpleTop3Names ph_env ph_st0.
Definition ph_ext2 := getSimpleTop3Names ph_env (snd ph_ext1).

Lemma placeholders_unique_witness :
  getSimpleTop3Names ph_env ph_st0 = (fst ph_ext1, snd ph_ext1) /\
  getSimpleTop3Names ph_env (snd ph_ext1) = (fst ph_ext2, snd ph_ext2) /\
  (clock (snd ph_ext1) <= clock (snd ph_ext1))%N /\
  reads (snd ph_ext1) = (reads ph_st0 ++ [1040%N; 1050%N])%list /\
  reads (snd ph_ext2) = (reads (snd ph_ext1) ++ [2100%N; 2110%N])%list /\
  fst ph_ext1 = Ok ["Contact 1040"; "Contact 1050"; ""] /\
  (forall t1 t2, In t1 [1040%N; 1050%N] -> In t2 [2100%N; 2110%N] ->
     placeholder t1 <> placeholder t2).
Proof.
  assert (H1 : getSimpleTop3Names ph_env ph_st0 = (fst ph_ext1, snd ph_ext1))
    by (vm_compute; reflexivity).
  assert (H2 : getSimpleTop3Names ph_env (snd ph_ext1)
               = (fst ph_ext2, snd ph_ext2)) by (vm_compute; reflexivity).
  assert (H3 : (clock (snd ph_ext1) <= clock (snd ph_ext1))%N) by lia.
  assert (H4 : reads (snd ph_ext1) = (reads ph_st0 ++ [1040%N; 1050%N])%list)
    by (vm_compute; reflexivity).
  assert (H5 : reads (snd ph_ext2)
               = (reads (snd ph_ext1) ++ [2100%N; 2110%N])%list)
    by (vm_compute; reflexivity).
  split; [exact H1|]. split; [exact H2|]. split; [exact H3|].
  split; [exact H4|]. split; [exact H5|].
  split; [vm_compute; reflexivity|].
  exact (proj2 (placeholders_unique _ _ _ _ _ _ _ _ _ H1 H2 H3 H4 H5)).
Defined.

(* ------------------------------------------------------------------ *)
(** ** One tick of the poll loop *)

Lemma getSimpleTop3Names_Ok env st :
  exists names st', getSimpleTop3Names env st = (Ok names, st').
Proof.
  unfold getSimpleTop3Names, catch.
  destruct (top3_body env st) as [[names|e] st']; eexists _, _; reflexivity.
Qed.

Lemma on_snapshot_spec env cur st :
  exists st', on_snapshot env cur st = (Ok tt, st') /\
    isRunning st' = isRunning st /\ clock st' = clock st /\
    (cur = savedTop3 st ->
       savedTop3 st' = savedTop3 st /\ outbox st' = outbox st /\
       delivered st' = delivered st) /\
    (cur <> savedTop3 st ->
       savedTop3 st' = cur /\ outbox st' = (outbox st ++ [cur])%list /\
       (env_mail_fails env (List.length (outbox st)) = false ->
          delivered st' = (delivered st ++ [cur])%list) /\
       (env_mail_fails env (List.length (outbox st)) = true ->
          delivered st' = delivered st /\
          In (clock st, "Error sending top 3 notification: SMTP error")
             (logs st'))).
Proof.
  unfold on_snapshot, bind at 1, get.
  destruct (arraysEqual cur (savedTop3 st)) eqn:Eq; cbn [negb].
  - apply arraysEqual_iff in Eq.
    eexists. split; [reflexivity|]. simpl.
    split; [reflexivity|]. split; [reflexivity|].
    split; [intros _; auto | intro H; contradiction].
  - assert (Hne : cur <> savedTop3 st)
      by (intro H; apply arraysEqual_iff in H; congruence).
    unfold sendTop3Notification, catch, sendMail, bind, log, upd, ret.
    destruct (env_mail_fails env _) eqn:Em; cbn;
      (eexists; split; [reflexivity|]); cbn;
      (split; [reflexivity|]); (split; [reflexivity|]);
      (split; [intro H; contradiction|]); intros _;
      (split; [reflexivity|]); (split; [reflexivity|]);
      split; intro H; try discriminate.
    + split; [reflexivity|]. apply in_or_app. right. left. reflexivity.
    + reflexivity.
Qed.

Lemma tick_cases env st :
  (exists e st0, waitForTimeout 5000 st = (Exn e, st0) /\
     tick env st = (log ("Error during monitoring: " ++ e) ;;
                    waitForTimeout 5000) st0) \/
  (exists st1 cur st2, waitForTimeout 5000 st = (Ok tt, st1) /\
     getSimpleTop3Names env st1 = (Ok cur, st2) /\
     tick env st = on_snapshot env cur st2).
Proof.
  destruct (waitForTimeout 5000 st) as [[[]|e] st1] eqn:Ew.
  - right. destruct (getSimpleTop3Names_Ok env st1) as (cur & st2 & Eg).
    exists st1, cur, st2. split; [reflexivity|]. split; [exact Eg|].
    destruct (on_snapshot_spec env cur st2) as (st' & Eo & _).
    unfold tick, catch, bind. rewrite Ew, Eg, Eo. reflexivity.
  - left. exists e, st1. split; [reflexivity|].
    unfold tick, catch, bind. rewrite Ew. reflexivity.
Qed.

Lemma wait_Ok_clock d st st1 :
  waitForTimeout d st = (Ok tt, st1) -> clock st1 = (clock st + d)%N.
Proof.
  unfold waitForTimeout. intro E; inversion E; reflexivity.
Qed.

(** A tick whose leading wait resolved compares the extracted snapshot
    with the baseline it started with. *)
Lemma tick_after_wait env st st1 cur st2 :
  waitForTimeout 5000 st = (Ok tt, st1) ->
  getSimpleTop3Names env st1 = (Ok cur, st2) ->
  tick env st = on_snapshot env cur st2 /\
  savedTop3 st2 = savedTop3 st /\ outbox st2 = outbox st /\
  delivered st2 = delivered st /\ isRunning st2 = isRunning st /\
  clock st2 = (clock st + 5000 + (clock st2 - clock st1))%N.
Proof.
  intros Ew Eg.
  destruct (tick_cases env st)
    as [(e & st0 & Ew' & _)|(st1' & cur' & st2' & Ew' & Eg' & Et)];
    [congruence|].
  rewrite Ew in Ew'. injection Ew' as <-. rewrite Eg in Eg'.
  injection Eg' as <- <-.
  destruct (Frame_wait 5000 _ _ _ Ew) as (_ & R1 & S1 & O1 & D1).
  destruct (Frame_getSimpleTop3Names env _ _ _ Eg) as (C2 & R2 & S2 & O2 & D2).
  pose proof (wait_Ok_clock _ _ _ Ew) as C1.
  repeat split; try congruence. lia.
Qed.

(** C3: in every tick, either the leading wait rejects (which the
    [setTimeout]-based wait never does; no snapshot would be taken,
    nothing sent, the baseline kept), or the extracted
    snapshot is compared with the baseline: when it differs exactly one
    notification carrying it is handed to the transporter and it
    becomes the baseline; when it is equal nothing is sent and the
    baseline stays.  Hence a tick that extracts the same snapshot again
    sends nothing. *)
Theorem poll_tick_change_detection :
  (forall env st, exists r st', tick env st = (r, st') /\
     isRunning st' = isRunning st /\
     (((exists e st0, waitForTimeout 5000 st = (Exn e, st0)) /\
       savedTop3 st' = savedTop3 st /\ outbox st' = outbox st) \/
      (exists st1 cur st2, waitForTimeout 5000 st = (Ok tt, st1) /\
         getSimpleTop3Names env st1 = (Ok cur, st2) /\ r = Ok tt /\
         (cur <> savedTop3 st ->
            outbox st' = (outbox st ++ [cur])%list /\ savedTop3 st' = cur) /\
         (cur = savedTop3 st ->
            outbox st' = outbox st /\ savedTop3 st' = savedTop3 st)))) /\
  (forall env st st1 cur st2 st' st1' st2' st'',
     waitForTimeout 5000 st = (Ok tt, st1) ->
     getSimpleTop3Names env st1 = (Ok cur, st2) ->
     tick env st = (Ok tt, st') ->
     waitForTimeout 5000 st' = (Ok tt, st1') ->
     getSimpleTop3Names env st1' = (Ok cur, st2') ->
     tick env st' = (Ok tt, st'') ->
     outbox st'' = outbox st' /\ savedTop3 st'' = savedTop3 st').
Proof.
  split.
  - intros env st.
    destruct (tick_cases env st)
      as [(e & st0 & Ew & Et)|(st1 & cur & st2 & Ew & Eg & Et)].
    + destruct (Frame_wait 5000 _ _ _ Ew) as (_ & R0 & S0 & O0 & _).
      destruct ((log ("Error during monitoring: " ++ e) ;;
                 waitForTimeout 5000) st0) as [r st'] eqn:Eh.
      assert (Fh : Frame (log ("Error during monitoring: " ++ e) ;;
                          waitForTimeout 5000)) by eauto with frame.
      destruct (Fh _ _ _ Eh) as (_ & R' & S' & O' & _).
      exists r, st'. split; [congruence|]. split; [congruence|].
      left. split; [eauto|]. split; congruence.
    + destruct (tick_after_wait _ _ _ _ _ Ew Eg) as (Et' & S2 & O2 & _ & R2 & _).
      destruct (on_snapshot_spec env cur st2)
        as (st' & Eo & Ro & _ & Heq & Hne).
      exists (Ok tt), st'. split; [congruence|]. split; [congruence|].
      right. exists st1, cur, st2. split; [exact Ew|]. split; [exact Eg|].
      split; [reflexivity|]. split.
      * intro H. rewrite <- S2 in H. destruct (Hne H) as (Hs & Ho & _).
        split; congruence.
      * intro H. rewrite <- S2 in H. destruct (Heq H) as (Hs & Ho & _).
        split; congruence.
  - intros env st st1 cur st2 st' st1' st2' st'' Ew Eg Et Ew' Eg' Et'.
    destruct (tick_after_wait _ _ _ _ _ Ew Eg) as (T1 & S2 & O2 & _).
    destruct (tick_after_wait _ _ _ _ _ Ew' Eg') as (T2 & S2' & O2' & _).
    destruct (on_snapshot_spec env cur st2) as (s1 & Eo1 & _ & _ & Heq1 & Hne1).
    rewrite T1, Eo1 in Et. injection Et as <-.
    assert (Hs : savedTop3 s1 = cur).
    { destruct (list_eq_dec String.string_dec cur (savedTop3 st2)) as [H|H].
      - destruct (Heq1 H) as (Hs & _). congruence.
      - destruct (Hne1 H) as (Hs & _). exact Hs. }
    destruct (on_snapshot_spec env cur st2') as (s2 & Eo2 & _ & _ & Heq2 & _).
    rewrite T2, Eo2 in Et'. injection Et' as <-.
    destruct (Heq2 ltac:(congruence)) as (Hs2 & Ho2 & _). split; congruence.
Qed.

(** C6: when the transporter rejects the notification of a changed
    snapshot, the rejection is caught and logged inside
    [sendTop3Notification]; the mail is attempted once, the tick
    resolves, the loop goes on, the baseline still becomes the new
    snapshot, and the next change gets its own attempt. *)
Theorem mail_failure_contained env st st1 cur st2 :
  waitForTimeout 5000 st = (Ok tt, st1) ->
  getSimpleTop3Names env st1 = (Ok cur, st2) ->
  cur <> savedTop3 st ->
  env_mail_fails env (List.length (outbox st)) = true ->
  exists st',
    tick env st = (Ok tt, st') /\
    savedTop3 st' = cur /\ outbox st' = (outbox st ++ [cur])%list /\
    delivered st' = delivered st /\ isRunning st' = isRunning st /\
    In (clock st2, "Error sending top 3 notification: SMTP error") (logs st') /\
    (forall f, isRunning st = true -> monitor env (S f) st = monitor env f st') /\
    (forall st1' cur' st2',
       waitForTimeout 5000 st' = (Ok tt, st1') ->
       getSimpleTop3Names env st1' = (Ok cur', st2') -> cur' <> cur ->
       exists st'', tick env st' = (Ok tt, st'') /\
         outbox st'' = (outbox st' ++ [cur'])%list /\ savedTop3 st'' = cur').
Proof.
  intros Ew Eg Hne Hm.
  destruct (tick_after_wait _ _ _ _ _ Ew Eg) as (Et & S2 & O2 & D2 & R2 & _).
  destruct (on_snapshot_spec env cur st2)
    as (st' & Eo & Ro & _ & _ & Hch).
  rewrite <- S2 in Hne. destruct (Hch Hne) as (Hs & Ho & _ & Hfail).
  rewrite O2 in Hfail. destruct (Hfail Hm) as (Hd & Hlog).
  exists st'. split; [congruence|].
  split; [exact Hs|]. split; [congruence|]. split; [congruence|].
  split; [congruence|]. split; [exact Hlog|]. split.
  - intros f Hr. simpl. unfold bind at 1, get. rewrite Hr.
    unfold bind at 1. rewrite Et, Eo. reflexivity.
  - intros st1' cur' st2' Ew' Eg' Hne'.
    destruct (tick_after_wait _ _ _ _ _ Ew' Eg') as (Et' & S2' & O2' & _).
    destruct (on_snapshot_spec env cur' st2')
      as (st'' & Eo' & _ & _ & _ & Hch').
    assert (H : cur' <> savedTop3 st2') by congruence.
    destruct (Hch' H) as (Hs' & Ho' & _).
    exists st''. split; [congruence|]. split; congruence.
Qed.

Definition mf_env : Env :=
  mkEnv (fun _ => false) (fun _ => 10%N)
    (fun _ s => if String.eqb s "div[role='listitem']" then [[]; []] else [])
    (fun _ => true).
Definition mf_st1 : St := snd (waitForTimeout 5000 ph_st0).
Definition mf_cur : list string := ["Contact 6040"; "Contact 6050"; ""].
Definition mf_st2 : St := snd (getSimpleTop3Names mf_env mf_st1).

Lemma mail_failure_contained_witness :
  waitForTimeout 5000 ph_st0 = (Ok tt, mf_st1) /\
  getSimpleTop3Names mf_env mf_st1 = (Ok mf_cur, mf_st2) /\
  mf_cur <> savedTop3 ph_st0 /\
  env_mail_fails mf_env (List.length (outbox ph_st0)) = true /\
  exists st', tick mf_env ph_st0 = (Ok tt, st') /\ savedTop3 st' = mf_cur /\
    outbox st' = [mf_cur] /\ delivered st' = [].
Proof.
  assert (H1 : waitForTimeout 5000 ph_st0 = (Ok tt, mf_st1))
    by (vm_compute; reflexivity).
  assert (H2 : getSimpleTop3Names mf_env mf_st1 = (Ok mf_cur, mf_st2))
    by (vm_compute; reflexivity).
  assert (H3 : mf_cur <> savedTop3 ph_st0) by (vm_compute; discriminate).
  assert (H4 : env_mail_fails mf_env (List.length (outbox ph_st0)) = true)
    by reflexivity.
  split; [exact H1|]. split; [exact H2|]. split; [exact H3|].
  split; [exact H4|].
  destruct (mail_failure_contained _ _ _ _ _ H1 H2 H3 H4)
    as (st' & Et & Hs & Ho & Hd & _).
  exists st'. split; [exact Et|]. split; [exact Hs|].
  split; [exact Ho | exact Hd].
Defined.

(** Extraction and notification never reject: a tick whose leading
    wait resolved resolves. *)
Lemma tick_Ok_after_wait env st st1 :
  waitForTimeout 5000 st = (Ok tt, st1) ->
  exists st', tick env st = (Ok tt, st').
Proof.
  intro Ew. destruct (getSimpleTop3Names_Ok env st1) as (cur & st2 & Eg).
  destruct (tick_after_wait _ _ _ _ _ Ew Eg) as (Et & _).
  destruct (on_snapshot_spec env cur st2) as (st' & Eo & _).
  exists st'. congruence.
Qed.

(* ------------------------------------------------------------------ *)
(** ** A failing extraction inside a tick *)

(** [on_snapshot] only appends to the log. *)
Lemma on_snapshot_logs env cur st st' :
  on_snapshot env cur st = (Ok tt, st') ->
  exists new, logs st' = (logs st ++ new)%list.
Proof.
  unfold on_snapshot, sendTop3Notification, catch, sendMail, bind, log, upd,
    ret, get.
  destruct (negb (arraysEqual cur (savedTop3 st))).
  - destruct (env_mail_fails env _); cbn; intro E; inversion E; subst; cbn;
      eexists; rewrite <- !app_assoc; reflexivity.
  - cbn. intro E. inversion E; subst. cbn. eexists. reflexivity.
Qed.

(** C7: no exception escapes a tick.  The tick starts with the 5 s
    wait, which always resolves; a rejection inside the extraction that
    follows (a page call of [getSimpleTop3Names]) is caught and logged
    there and gives the Error snapshot, and a rejected mail is caught in
    [sendTop3Notification].  So the tick resolves, [isRunning] is
    unchanged and the loop goes on with the next tick, whose extraction
    again starts exactly 5 s after this tick ended, whether this tick's
    extraction failed or not. *)
Theorem tick_failure_recovery :
  forall env st, exists st1 cur st2 st',
    waitForTimeout 5000 st = (Ok tt, st1) /\ clock st1 = (clock st + 5000)%N /\
    getSimpleTop3Names env st1 = (Ok cur, st2) /\
    tick env st = (Ok tt, st') /\ isRunning st' = isRunning st /\
    clock st' = clock st2 /\
    (forall e st3, top3_body env st1 = (Exn e, st3) ->
       cur = error_snapshot /\
       In (clock st3, "Error getting simple top 3: " ++ e) (logs st')) /\
    (forall f, isRunning st = true -> monitor env (S f) st = monitor env f st') /\
    (exists st1', waitForTimeout 5000 st' = (Ok tt, st1') /\
       clock st1' = (clock st' + 5000)%N).
Proof.
  intros env st.
  set (st1 := set_clock_calls (clock st + 5000) (S (ncalls st)) st).
  assert (Ew : waitForTimeout 5000 st = (Ok tt, st1)) by reflexivity.
  destruct (getSimpleTop3Names_Ok env st1) as (cur & st2 & Eg).
  destruct (tick_after_wait _ _ _ _ _ Ew Eg) as (Et & _ & _ & _ & R2 & _).
  destruct (on_snapshot_spec env cur st2) as (st' & Eo & Ro & Co & _).
  exists st1, cur, st2, st'.
  split; [exact Ew|]. split; [reflexivity|]. split; [exact Eg|].
  split; [congruence|]. split; [congruence|]. split; [exact Co|].
  split; [|split].
  - intros e st3 Eb.
    assert (Eg' : getSimpleTop3Names env st1 =
              (Ok error_snapshot, add_log ("Error getting simple top 3: " ++ e) st3)).
    { unfold getSimpleTop3Names, catch. rewrite Eb. reflexivity. }
    rewrite Eg in Eg'. injection Eg' as -> ->.
    split; [reflexivity|].
    destruct (on_snapshot_logs _ _ _ _ Eo) as (new & L). rewrite L.
    apply in_or_app. left. cbn. apply in_or_app. right. left. reflexivity.
  - intros f Hr. simpl. unfold bind at 1, get. rewrite Hr.
    unfold bind at 1. rewrite Et, Eo. reflexivity.
  - eexists. split; reflexivity.
Qed.

(* ------------------------------------------------------------------ *)
(** ** Degraded snapshots *)

Lemma resolve_none_match env sels :
  (forall n, env_fails env n = false) ->
  (forall s, In s sels -> forall t, env_dom env t s = []) ->
  forall st, exists st', resolve (qsa env) sels [] st = (Ok [], st').
Proof.
  intros Hf. induction sels as [|s rest IH]; intros Hd st; simpl.
  - eexists. reflexivity.
  - unfold bind at 1, qsa, page_call. rewrite Hf, Hd by (left; reflexivity).
    cbn [List.length Nat.ltb Nat.leb]. apply IH.
    intros s' Hs'. apply Hd. right. exact Hs'.
Qed.

Lemma no_chats_extraction env :
  (forall n, env_fails env n = false) ->
  (forall t s, In s chatSelectors -> env_dom env t s = []) ->
  forall st, exists st', getSimpleTop3Names env st = (Ok no_chats_snapshot, st').
Proof.
  intros Hf Hd st.
  set (st1 := set_clock_calls (clock st + 1000) (S (ncalls st)) st).
  destruct (resolve_none_match env chatSelectors Hf
              (fun s Hs t => Hd t s Hs) st1) as (st2 & Er).
  eexists. unfold getSimpleTop3Names, catch, top3_body, top3_after_wait.
  unfold bind at 1, waitForTimeout at 1. fold st1.
  unfold bind at 1. rewrite Er. reflexivity.
Qed.

(** C10: the degraded snapshots are the constants
    [["No chats found"; ""; ""]] (no selector matched) and
    [["Error"; ""; ""]] (the extraction raised); a snapshot equal to the
    baseline sends nothing and keeps it, and any compared snapshot
    becomes the baseline, so a repeated degraded snapshot sends at most
    one notification.  On the loop itself, during a sustained outage in
    which no selector matches, at most one notification is sent, and
    none when the baseline already is the no-chats snapshot. *)
Theorem degraded_snapshots_constant :
  (forall env st e st1, top3_body env st = (Exn e, st1) ->
     getSimpleTop3Names env st =
       (Ok error_snapshot, add_log ("Error getting simple top 3: " ++ e) st1)) /\
  (forall env st st1 st2, waitForTimeout 1000 st = (Ok tt, st1) ->
     resolve (qsa env) chatSelectors [] st1 = (Ok [], st2) ->
     getSimpleTop3Names env st = (Ok no_chats_snapshot, add_log "No chats found" st2)) /\
  (forall env d st, savedTop3 st = d ->
     exists st', on_snapshot env d st = (Ok tt, st') /\
       outbox st' = outbox st /\ savedTop3 st' = d) /\
  (forall env d st, exists st', on_snapshot env d st = (Ok tt, st') /\
     savedTop3 st' = d /\
     List.length (outbox st') <= List.length (outbox st) + 1) /\
  (forall env, (forall n, env_fails env n = false) ->
     (forall t s, In s chatSelectors -> env_dom env t s = []) ->
     forall fuel st r st', monitor env fuel st = (r, st') ->
       List.length (outbox st') <= List.length (outbox st) + 1 /\
       (savedTop3 st = no_chats_snapshot -> outbox st' = outbox st)).
Proof.
  split; [|split; [|split; [|split]]].
  - intros env st e st1 E. unfold getSimpleTop3Names, catch. rewrite E.
    reflexivity.
  - intros env st st1 st2 Ew Er.
    unfold getSimpleTop3Names, catch, top3_body, top3_after_wait.
    unfold bind at 1. rewrite Ew. unfold bind at 1. rewrite Er. reflexivity.
  - intros env d st Hs.
    destruct (on_snapshot_spec env d st) as (st' & Eo & _ & _ & Heq & _).
    destruct (Heq (eq_sym Hs)) as (S' & O' & _).
    exists st'. split; [exact Eo|]. split; congruence.
  - intros env d st.
    destruct (on_snapshot_spec env d st) as (st' & Eo & _ & _ & Heq & Hne).
    exists st'. split; [exact Eo|].
    destruct (list_eq_dec String.string_dec d (savedTop3 st)) as [H|H].
    + destruct (Heq H) as (S' & O' & _). split; [congruence|]. rewrite O'. lia.
    + destruct (Hne H) as (S' & O' & _). split; [exact S'|].
      rewrite O', length_app. simpl. lia.
  - intros env Hf Hd fuel. induction fuel as [|f IH]; intros st r st' E.
    + inversion E; subst. split; [lia | reflexivity].
    + simpl in E. unfold bind at 1, get in E.
      destruct (isRunning st).
      * assert (Ew : waitForTimeout 5000 st =
                     (Ok tt, set_clock_calls (clock st + 5000) (S (ncalls st)) st))
          by reflexivity.
        destruct (no_chats_extraction env Hf Hd
                    (set_clock_calls (clock st + 5000) (S (ncalls st)) st))
          as (st2 & Eg).
        destruct (tick_after_wait _ _ _ _ _ Ew Eg) as (Et & S2 & O2 & _).
        destruct (on_snapshot_spec env no_chats_snapshot st2)
          as (s1 & Eo & _ & _ & Heq & Hne).
        unfold bind at 1 in E. rewrite Et, Eo in E.
        destruct (IH _ _ _ E) as (L1 & Z1).
        destruct (list_eq_dec String.string_dec no_chats_snapshot (savedTop3 st2))
          as [H|H].
        -- destruct (Heq H) as (Sa & Oa & _).
           assert (outbox st' = outbox s1) as Hst' by (apply Z1; congruence).
           split; [rewrite Hst', Oa, O2; lia|]. intros _. congruence.
        -- destruct (Hne H) as (Sa & Oa & _).
           assert (outbox st' = outbox s1) as Hst' by (apply Z1; exact Sa).
           split.
           ++ rewrite Hst', Oa, length_app, O2. simpl. lia.
           ++ intro Hs. exfalso. apply H. congruence.
      * inversion E; subst. split; [lia | reflexivity].
Qed.

(* ------------------------------------------------------------------ *)
(** ** Start-up *)

Definition full_cfg : Config :=
  mkConfig (Some "watcher@example.com") (Some "app-password")
           (Some "me@example.com").

Definition launch_fails (s : InitStep) : bool :=
  match s with Launch => true | _ => false end.

(** C9 (counterexample): with the whole configuration present, a
    rejected browser launch also makes [main] exit with code 1, so
    missing configuration is not the only error that halts the
    process. *)
Lemma main_exit_counterexample :
  env_missing (EMAIL_USER full_cfg) = false /\
  env_missing (EMAIL_PASS full_cfg) = false /\
  env_missing (EMAIL_TO full_cfg) = false /\
  main full_cfg launch_fails =
    ProcessExit 1 "Application failed to start: initialization step failed".
Proof. repeat split; reflexivity. Qed.

Lemma run_steps_ok fails steps :
  run_steps fails steps = Ok tt <-> (forall s, In s steps -> fails s = false).
Proof.
  induction steps as [|s rest IH]; simpl.
  - split; [intros _ s []|reflexivity].
  - destruct (fails s) eqn:Es.
    + split; [discriminate|]. intro H. rewrite (H s (or_introl eq_refl)) in Es.
      discriminate.
    + rewrite IH. split.
      * intros H s' [<-|Hs']; [exact Es | apply H, Hs'].
      * intros H s' Hs'. apply H. right. exact Hs'.
Qed.

(** C9 (amended): if [EMAIL_USER], [EMAIL_PASS] or [EMAIL_TO] is unset
    or empty, [main] logs the error and exits with code 1; it also exits
    with code 1 when [initialize] rejects (browser launch, page set-up,
    navigation, or the authentication wait), and it starts only when
    the configuration is complete and every initialization step
    succeeds.  Errors of a tick's extraction and notification are
    contained to the tick. *)
Theorem main_exit_amended :
  (forall cfg fails,
     env_missing (EMAIL_USER cfg) || env_missing (EMAIL_PASS cfg)
     || env_missing (EMAIL_TO cfg) = true ->
     main cfg fails = ProcessExit 1
       ("Application failed to start: " ++
        "Missing required email configuration. Please check your .env file.")) /\
  (forall cfg fails,
     main cfg fails = Started <->
     (env_missing (EMAIL_USER cfg) = false /\
      env_missing (EMAIL_PASS cfg) = false /\
      env_missing (EMAIL_TO cfg) = false /\
      forall s, In s init_steps -> fails s = false)) /\
  (forall cfg fails, main cfg fails <> Started ->
     exists msg, main cfg fails = ProcessExit 1 msg) /\
  (forall env st st1, waitForTimeout 5000 st = (Ok tt, st1) ->
     exists st', tick env st = (Ok tt, st')).
Proof.
  split; [|split; [|split]].
  - intros cfg fails H. unfold main. rewrite H. reflexivity.
  - intros cfg fails. unfold main, initialize.
    destruct (env_missing (EMAIL_USER cfg)), (env_missing (EMAIL_PASS cfg)),
      (env_missing (EMAIL_TO cfg)); cbn [orb];
      try (split; [discriminate | intros (H1 & H2 & H3 & _); discriminate]).
    rewrite <- (run_steps_ok fails init_steps).
    destruct (run_steps fails init_steps) as [[]|e].
    + split; auto.
    + split; [discriminate|]. intros (_ & _ & _ & H). discriminate.
  - intros cfg fails H. unfold main in *.
    destruct (env_missing (EMAIL_USER cfg) || env_missing (EMAIL_PASS cfg)
              || env_missing (EMAIL_TO cfg)); [eauto|].
    destruct (initialize fails) as [u|msg]; [contradiction|eauto].
  - exact tick_Ok_after_wait.
Qed.

(* ================================================================== *)
(** * Further properties of the surrounding code *)

(* ------------------------------------------------------------------ *)
(** ** [trim] and names *)

Lemma drop_ws_suffix l : exists p, l = (p ++ JsString.drop_ws l)%list.
Proof.
  induction l as [|c r IH]; cbn [JsString.drop_ws].
  - exists []. reflexivity.
  - destruct (JsString.is_ws c).
    + destruct IH as [p Hp]. exists (c :: p). cbn. congruence.
    + exists []. reflexivity.
Qed.

Lemma drop_ws_idem l : JsString.drop_ws (JsString.drop_ws l) = JsString.drop_ws l.
Proof.
  induction l as [|c r IH]; cbn [JsString.drop_ws]; [reflexivity|].
  destruct (JsString.is_ws c) eqn:E; [exact IH|]. cbn [JsString.drop_ws].
  rewrite E. reflexivity.
Qed.

Lemma drop_ws_cases l :
  JsString.drop_ws l = [] \/
  exists c r, JsString.drop_ws l = c :: r /\ JsString.is_ws c = false.
Proof.
  induction l as [|c r IH]; cbn [JsString.drop_ws]; [left; reflexivity|].
  destruct (JsString.is_ws c) eqn:E; [exact IH | right; eauto].
Qed.

Lemma drop_ws_nonws c r :
  JsString.is_ws c = false -> JsString.drop_ws (c :: r) = c :: r.
Proof. intro H. cbn [JsString.drop_ws]. rewrite H. reflexivity. Qed.

Lemma trim_list_idem L :
  List.rev (JsString.drop_ws (List.rev (JsString.drop_ws
    (List.rev (JsString.drop_ws (List.rev (JsString.drop_ws L))))))) =
  List.rev (JsString.drop_ws (List.rev (JsString.drop_ws L))).
Proof.
  remember (JsString.drop_ws L) as D eqn:HD.
  remember (JsString.drop_ws (List.rev D)) as E eqn:HE.
  assert (Hhead : JsString.drop_ws (List.rev E) = List.rev E).
  { destruct (List.rev E) as [|y ys] eqn:Hr; [reflexivity|].
    destruct (drop_ws_suffix (List.rev D)) as [p Hp]. rewrite <- HE in Hp.
    assert (HD' : D = (List.rev E ++ List.rev p)%list).
    { rewrite <- rev_app_distr, <- Hp, rev_involutive. reflexivity. }
    rewrite Hr in HD'. cbn in HD'.
    destruct (drop_ws_cases L) as [H0 | (c & r & H0 & Hc)];
      rewrite <- HD in H0; rewrite H0 in HD'.
    - discriminate.
    - injection HD' as Hc' _. subst c. apply drop_ws_nonws. exact Hc. }
  rewrite Hhead, rev_involutive, HE, drop_ws_idem. reflexivity.
Qed.

(** [s.trim().trim() === s.trim()] *)
Lemma trim_idem s : JsString.trim (JsString.trim s) = JsString.trim s.
Proof.
  unfold JsString.trim.
  rewrite list_ascii_of_string_of_list_ascii, trim_list_idem. reflexivity.
Qed.

(** Strings without a character removed by [trim]. *)
Definition no_ws (s : string) : bool :=
  forallb (fun c => negb (JsString.is_ws c)) (list_ascii_of_string s).

Lemma forallb_rev {X} (f : X -> bool) l : forallb f (List.rev l) = forallb f l.
Proof.
  induction l as [|x r IH]; cbn; [reflexivity|].
  rewrite forallb_app, IH. cbn. rewrite andb_true_r, andb_comm. reflexivity.
Qed.

Lemma drop_ws_all_nonws l :
  forallb (fun c => negb (JsString.is_ws c)) l = true -> JsString.drop_ws l = l.
Proof.
  intros Hl. destruct l as [|c r]; [reflexivity|].
  cbn in Hl. apply andb_prop in Hl as [Hc _]. apply negb_true_iff in Hc.
  apply drop_ws_nonws, Hc.
Qed.

Lemma trim_no_ws s : no_ws s = true -> JsString.trim s = s.
Proof.
  unfold no_ws, JsString.trim. intro H.
  rewrite (drop_ws_all_nonws _ H), drop_ws_all_nonws
    by (rewrite forallb_rev; exact H).
  rewrite rev_involutive, string_of_list_ascii_of_string. reflexivity.
Qed.

Lemma no_ws_append a b : no_ws (a ++ b) = no_ws a && no_ws b.
Proof.
  induction a as [|c a IH]; cbn; [reflexivity|].
  unfold no_ws in *. cbn. rewrite IH, andb_assoc. reflexivity.
Qed.

Lemma no_ws_uint d : no_ws (NilEmpty.string_of_uint d) = true.
Proof. induction d; cbn; try exact IHd; reflexivity. Qed.

Lemma of_N_no_ws n : no_ws (JsString.of_N n) = true.
Proof.
  unfold JsString.of_N, NilZero.string_of_uint.
  destruct (N.to_uint n); try reflexivity; apply no_ws_uint.
Qed.

(** A name candidate: [''] or a non-empty trimmed string. *)
Definition name_cand (n : string) : Prop :=
  n = "" \/ (JsString.truthy n = true /\ JsString.trim n = n).

Lemma trim_cand s : JsString.truthy (JsString.trim s) = true ->
  name_cand (JsString.trim s).
Proof. intro H. right. split; [exact H | apply trim_idem]. Qed.

Lemma cand_truthy n : name_cand n -> JsString.truthy n = true ->
  JsString.trim n = n.
Proof. intros [->|[_ H]] T; [discriminate | exact H]. Qed.

Lemma contact_title_loop_cand els : name_cand (contact_title_loop els).
Proof.
  induction els as [|e rest IH]; cbn [contact_title_loop]; [left; reflexivity|].
  destruct (contact_title_ok (title_attr e)) eqn:E; [|exact IH].
  apply trim_cand. unfold contact_title_ok in E.
  apply andb_prop in E as [E _]. apply andb_prop in E as [E _].
  apply andb_prop in E as [_ E]. exact E.
Qed.

Lemma contact_text_loop_cand spans : name_cand (contact_text_loop spans).
Proof.
  induction spans as [|e rest IH]; cbn [contact_text_loop]; [left; reflexivity|].
  destruct (contact_text_ok (span_text e)) eqn:E; [|exact IH].
  apply trim_cand. unfold contact_text_ok in E.
  do 6 (apply andb_prop in E as [E _]). apply andb_prop in E as [_ E]. exact E.
Qed.

Lemma line_loop_cand lines : name_cand (line_loop lines).
Proof.
  induction lines as [|l rest IH]; cbn [line_loop]; [left; reflexivity|].
  destruct (line_ok l) eqn:E; [|exact IH].
  apply trim_cand. unfold line_ok in E.
  do 3 (apply andb_prop in E as [E _]). exact E.
Qed.

Lemma contact_fallback_ok i now :
  JsString.truthy (contact_fallback i now) = true /\
  JsString.trim (contact_fallback i now) = contact_fallback i now.
Proof.
  split; [reflexivity|]. apply trim_no_ws. unfold contact_fallback, of_nat.
  rewrite !no_ws_append, !of_N_no_ws. reflexivity.
Qed.

Lemma pick_cand (b : bool) x y : name_cand x -> name_cand y ->
  name_cand (if b then x else y).
Proof. destruct b; auto. Qed.

(** The object built in the page: position [index + 1] and a non-empty,
    trimmed name. *)
Lemma extract_contact_ok it tc oh el index now :
  let info := fst (extract_contact it tc oh el index now) in
  ci_position info = S index /\ JsString.truthy (ci_name info) = true /\
  JsString.trim (ci_name info) = ci_name info.
Proof.
  unfold extract_contact. cbv zeta.
  match goal with
  | |- context [if negb (JsString.truthy ?n3) then (contact_fallback _ _, _) else _] =>
      assert (C : name_cand n3)
        by (repeat apply pick_cand;
            auto using contact_title_loop_cand, contact_text_loop_cand,
                       line_loop_cand);
      destruct (JsString.truthy n3) eqn:T
  end; cbn.
  - split; [reflexivity|]. split; [exact T | apply cand_truthy; assumption].
  - split; [reflexivity | apply contact_fallback_ok].
Qed.

(* ------------------------------------------------------------------ *)
(** ** Page calls *)

Lemma page_call_Ok_inv env {A} (f : N -> A) st a st' :
  page_call env f st = (Ok a, st') -> a = f (clock st).
Proof.
  unfold page_call. destruct (env_fails env (ncalls st)); intro H;
    [discriminate|]. injection H as <- _. reflexivity.
Qed.

Lemma log_Ok_inv msg st u st' : log msg st = (Ok u, st') -> st' = add_log msg st.
Proof. unfold log, upd. intro H. injection H as _ <-. reflexivity. Qed.

(** Whatever the selector loop returns is its initial value or the
    answer of one of its selectors. *)
Lemma resolve_answer (q : string -> M (list Node))
    (Ans : string -> list Node -> Prop) sels c0 st c st' :
  (forall sel st r st', q sel st = (Ok r, st') -> Ans sel r) ->
  resolve q sels c0 st = (Ok c, st') ->
  c = c0 \/ exists sel, In sel sels /\ Ans sel c.
Proof.
  intros Hq. revert c0 st.
  induction sels as [|sel rest IH]; intros c0 st H; cbn [resolve] in H.
  - injection H as <- _. left. reflexivity.
  - apply bind_Ok_inv in H as (cs & st1 & Hcs & H).
    destruct (Nat.ltb 0 (List.length cs)).
    + apply bind_Ok_inv in H as (u & st2 & _ & H). injection H as <- _.
      right. exists sel. split; [left; reflexivity | eapply Hq; eauto].
    + destruct (IH cs st1 H) as [-> | (sel' & Hin & Ha)].
      * right. exists sel. split; [left; reflexivity | eapply Hq; eauto].
      * right. exists sel'. split; [right; exact Hin | exact Ha].
Qed.

Lemma qsa_answer env sel st r st' :
  qsa env sel st = (Ok r, st') -> exists t, env_dom env t sel = r.
Proof. unfold qsa. intro H. apply page_call_Ok_inv in H. eauto. Qed.

Lemma qsa_debug_answer env sel st r st' :
  qsa_debug env sel st = (Ok r, st') -> exists t, env_dom env t sel = r.
Proof.
  unfold qsa_debug. intro H.
  apply bind_Ok_inv in H as (cs & st1 & Hq & H).
  apply bind_Ok_inv in H as (u & st2 & _ & H). injection H as <- _.
  eapply qsa_answer; eauto.
Qed.

(* ------------------------------------------------------------------ *)
(** ** [getTop3Contacts] *)

Definition good_contact (k : nat) (c : Contact) : Prop :=
  ci_position (c_info c) = S k /\ JsString.truthy (ci_name (c_info c)) = true /\
  JsString.trim (ci_name (c_info c)) = ci_name (c_info c).

Lemma evaluate_contact_ok env it tc oh el i st info st' :
  evaluate_contact env it tc oh el i st = (Ok info, st') -> good_contact i (mkContact info el).
Proof.
  unfold evaluate_contact. intro H.
  apply bind_Ok_inv in H as (r & st1 & Hp & H).
  apply bind_Ok_inv in H as (u & st2 & _ & H). injection H as <- _.
  apply page_call_Ok_inv in Hp. subst r. apply extract_contact_ok.
Qed.

Lemma contacts_loop_spec env it tc oh els i acc st r st' :
  contacts_loop env it tc oh els i acc st = (Ok r, st') ->
  List.length acc = i ->
  (forall k c, nth_error acc k = Some c -> good_contact k c) ->
  map c_chatElement r = (map c_chatElement acc ++ els)%list /\
  (forall k c, nth_error r k = Some c -> good_contact k c).
Proof.
  revert i acc st.
  induction els as [|el rest IH]; intros i acc st H Hlen Hgood;
    cbn [contacts_loop] in H.
  - injection H as <- _. rewrite app_nil_r. auto.
  - apply bind_Ok_inv in H as (u1 & st1 & _ & H).
    apply bind_Ok_inv in H as (info & st2 & Hev & H).
    apply bind_Ok_inv in H as (u2 & st3 & _ & H).
    apply bind_Ok_inv in H as (u3 & st4 & _ & H).
    apply evaluate_contact_ok in Hev.
    destruct (IH (S i) (acc ++ [mkContact info el])%list st4 H) as [Hm Hg].
    + rewrite length_app, Hlen. cbn. lia.
    + intros k c Hk. destruct (Nat.lt_ge_cases k (List.length acc)) as [Hlt|Hge].
      * rewrite nth_error_app1 in Hk by exact Hlt. eauto.
      * rewrite nth_error_app2 in Hk by exact Hge.
        destruct (k - List.length acc) as [|j] eqn:Hj; cbn in Hk.
        -- injection Hk as <-. replace k with i by lia. exact Hev.
        -- destruct j; discriminate.
    + split; [|exact Hg]. rewrite Hm, map_app, <- app_assoc. reflexivity.
Qed.

(** [getTop3Contacts] never rejects.  It returns [[]] when no selector
    finds a chat (or when a page call fails); otherwise one contact for
    each of the first [Math.min(3, chats.length)] chats found by the
    first matching selector, in order, without padding.  Contact [k]
    has position [k + 1] and a non-empty, trimmed name. *)
Theorem getTop3Contacts_contacts env it tc oh app st :
  exists r st', getTop3Contacts env it tc oh app st = (Ok r, st') /\
    (forall k c, nth_error r k = Some c ->
       ci_position (c_info c) = S k /\
       JsString.truthy (ci_name (c_info c)) = true /\
       JsString.trim (ci_name (c_info c)) = ci_name (c_info c)) /\
    (r = [] \/
     exists sel t chats,
       In sel (chatListSelectors ++ broadSelectors) /\
       env_dom env t sel = chats /\ chats <> [] /\
       map c_chatElement r = firstn (Nat.min 3 (List.length chats)) chats).
Proof.
  unfold getTop3Contacts, catch.
  destruct (top3_contacts_body env it tc oh app st) as [[r|msg] st1] eqn:E.
  - exists r, st1. split; [reflexivity|].
    unfold top3_contacts_body in E.
    apply bind_Ok_inv in E as (u1 & st2 & _ & E).
    apply bind_Ok_inv in E as (u2 & st3 & _ & E).
    apply bind_Ok_inv in E as (chats1 & st4 & Hr1 & E).
    apply bind_Ok_inv in E as (chats & st5 & Hr2 & E).
    assert (Hans : chats <> [] -> exists sel t,
              In sel (chatListSelectors ++ broadSelectors) /\
              env_dom env t sel = chats).
    { intro Hne.
      destruct (Nat.eqb (List.length chats1) 0) eqn:L.
      - destruct chats1; [|discriminate].
        apply bind_Ok_inv in Hr2 as (u & st6 & _ & Hr2).
        destruct (resolve_answer _ (fun sel r => exists t, env_dom env t sel = r)
                    _ _ _ _ _ (qsa_answer env) Hr2)
          as [-> | (sel & Hin & t & Ht)]; [contradiction|].
        exists sel, t. split; [apply in_or_app; right; exact Hin | exact Ht].
      - injection Hr2 as <- _.
        destruct (resolve_answer _ (fun sel r => exists t, env_dom env t sel = r)
                    _ _ _ _ _ (qsa_debug_answer env) Hr1)
          as [-> | (sel & Hin & t & Ht)]; [contradiction|].
        exists sel, t. split; [apply in_or_app; left; exact Hin | exact Ht]. }
    destruct (Nat.eqb (List.length chats) 0) eqn:L.
    + apply bind_Ok_inv in E as (u3 & st6 & _ & E).
      apply bind_Ok_inv in E as (u4 & st7 & _ & E).
      injection E as <- _. split; [|left; reflexivity].
      intros k c Hk. destruct k; discriminate.
    + apply bind_Ok_inv in E as (u3 & st6 & _ & E).
      apply bind_Ok_inv in E as (top3 & st7 & Hl & E).
      apply bind_Ok_inv in E as (u4 & st8 & _ & E).
      injection E as <- _.
      assert (H0 : forall k c, nth_error (@nil Contact) k = Some c ->
                               good_contact k c) by (intros [|k] c H; discriminate).
      destruct (contacts_loop_spec _ _ _ _ _ _ _ _ _ _ Hl eq_refl H0) as [Hm Hg].
      split; [exact Hg|]. right.
      assert (Hne : chats <> []) by (intros ->; discriminate).
      destruct (Hans Hne) as (sel & t & Hin & Ht).
      exists sel, t, chats. repeat split; auto.
  - cbn in E |- *. unfold bind, log, upd. cbn.
    eexists [], _. split; [reflexivity|].
    split; [intros [|k] c Hk; discriminate | left; reflexivity].
Qed.

(* ------------------------------------------------------------------ *)
(** ** [getContactNameOnly] *)

Lemma header_name_loop_spec env q sels st r st' :
  header_name_loop env q sels st = (Ok r, st') ->
  r = "" \/
  exists sel t e, In sel sels /\ q t sel = Some e /\
    JsString.truthy r = true /\ r = JsString.trim (text_or_title e).
Proof.
  revert st. induction sels as [|sel rest IH]; intros st H;
    cbn [header_name_loop] in H.
  - injection H as <- _. left. reflexivity.
  - apply bind_Ok_inv in H as (ne & st1 & Hd & H).
    unfold page_dollar in Hd. apply page_call_Ok_inv in Hd. subst ne.
    destruct (q (clock st) sel) as [e|] eqn:Hq.
    + apply bind_Ok_inv in H as (name & st2 & Hn & H).
      apply page_call_Ok_inv in Hn. subst name.
      destruct (JsString.truthy (text_or_title e)
                && JsString.truthy (JsString.trim (text_or_title e))) eqn:T.
      * injection H as <- _. apply andb_prop in T as [_ T].
        right. exists sel, (clock st), e. repeat split; auto. left. reflexivity.
      * destruct (IH _ H) as [-> | (sel' & t & e' & Hin & Hq' & Ht & ->)];
          [left; reflexivity|].
        right. exists sel', t, e'. repeat split; auto. right. exact Hin.
    + destruct (IH _ H) as [-> | (sel' & t & e' & Hin & Hq' & Ht & ->)];
        [left; reflexivity|].
      right. exists sel', t, e'. repeat split; auto. right. exact Hin.
Qed.

(** [getContactNameOnly] never rejects and always yields a non-empty,
    trimmed name: ['Unknown Contact'] when a page call fails or no
    header element has a non-blank text or title, otherwise the trimmed
    [textContent || title] of an element matched by one of the four
    header selectors. *)
Theorem getContactNameOnly_name env q st :
  exists name st', getContactNameOnly env q st = (Ok name, st') /\
    JsString.truthy name = true /\ JsString.trim name = name /\
    (name = "Unknown Contact" \/
     exists sel t e, In sel nameSelectors /\ q t sel = Some e /\
       name = JsString.trim (text_or_title e)).
Proof.
  unfold getContactNameOnly, catch.
  destruct (bind (header_name_loop env q nameSelectors) _ st)
    as [[name|msg] st1] eqn:E.
  - exists name, st1. split; [reflexivity|].
    apply bind_Ok_inv in E as (r & st2 & Hl & E). injection E as <- _.
    destruct (header_name_loop_spec _ _ _ _ _ _ Hl)
      as [-> | (sel & t & e & Hin & Hq & T & ->)].
    + cbn. split; [reflexivity | split; [reflexivity | left; reflexivity]].
    + rewrite T. split; [exact T | split; [apply trim_idem | right]]. exists sel, t, e. auto.
  - cbn. eexists _, _. split; [reflexivity|].
    split; [reflexivity | split; [reflexivity | left; reflexivity]].
Qed.

(* ------------------------------------------------------------------ *)
(** ** [verifyEmailConnection] *)

Lemma nt_log_fold_fields msgs n :
  let n' := fold_left (fun n msg => nt_log msg n) msgs n in
  nt_emailTransporter n' = nt_emailTransporter n /\
  nt_currentConfigIndex n' = nt_currentConfigIndex n /\
  nt_emailConfigs n' = nt_emailConfigs n.
Proof.
  revert n. induction msgs as [|m rest IH]; intro n; cbn; [auto|].
  destruct (IH (nt_log m n)) as (H1 & H2 & H3). cbn in H1, H2, H3. auto.
Qed.

Lemma verify_loop_spec ve cfgs i n :
  let '(b, n') := verify_loop ve cfgs i n in
  nt_emailConfigs n' = nt_emailConfigs n /\
  (b = true <-> exists j, j < List.length cfgs /\ ve (i + j) = None) /\
  (b = true -> exists j name cfg,
     nth_error cfgs j = Some (name, cfg) /\ ve (i + j) = None /\
     (forall k, k < j -> ve (i + k) <> None) /\
     nt_emailTransporter n' = Some cfg /\ nt_currentConfigIndex n' = i + j) /\
  (b = false -> nt_emailTransporter n' = nt_emailTransporter n /\
     nt_currentConfigIndex n' = nt_currentConfigIndex n).
Proof.
  revert i n. induction cfgs as [|[name config] rest IH]; intros i n;
    cbn [verify_loop].
  - destruct (nt_log_fold_fields all_failed_lines n) as (H1 & H2 & H3).
    split; [exact H3|]. split; [|split; [discriminate | auto]].
    split; [discriminate | intros (j & Hj & _); cbn in Hj; lia].
  - destruct (ve i) as [msg|] eqn:Hv.
    + specialize (IH (S i)
        (nt_log (name ++ " failed: " ++ msg) (nt_log ("Testing " ++ name ++ "...") n))).
      destruct (verify_loop ve rest (S i) _) as [b n'].
      destruct IH as (H1 & H2 & H3 & H4).
      split; [exact H1|]. split; [|split].
      * rewrite H2. split.
        -- intros (j & Hj & Hn). exists (S j). cbn.
           replace (i + S j) with (S i + j) by lia. split; [lia | exact Hn].
        -- intros ([|j] & Hj & Hn).
           ++ rewrite Nat.add_0_r, Hv in Hn. discriminate.
           ++ exists j. cbn in Hj. replace (S i + j) with (i + S j) by lia.
              split; [lia | exact Hn].
      * intro Hb. destruct (H3 Hb) as (j & nm & cfg & Hj & Hn & Hk & Ht & Hi).
        exists (S j), nm, cfg. cbn. replace (i + S j) with (S i + j) by lia.
        split; [exact Hj|]. split; [exact Hn|]. split; [|split; [exact Ht|lia]].
        intros [|k] Hk'.
        -- rewrite Nat.add_0_r, Hv. discriminate.
        -- replace (i + S k) with (S i + k) by lia. apply Hk. lia.
      * intro Hb. exact (H4 Hb).
    + cbn. split; [reflexivity|]. split; [|split; [|discriminate]].
      * split; [intros _; exists 0; split; [cbn; lia | rewrite Nat.add_0_r; exact Hv]
               | reflexivity].
      * intros _. exists 0, name, config. rewrite Nat.add_0_r.
        repeat split; auto. intros k Hk. lia.
Qed.

(** [verifyEmailConnection] tries the configurations in order and stops
    at the first whose [verify()] resolves: it returns [true] exactly
    when one of them verifies, and then the transporter is built from
    the first such configuration and [currentConfigIndex] is its index.
    When all fail it returns [false] and leaves the transporter and the
    index as they were.  The configuration list is never changed. *)
Theorem verifyEmailConnection_first_working ve n :
  let '(b, n') := verifyEmailConnection ve n in
  nt_emailConfigs n' = nt_emailConfigs n /\
  (b = true <->
   exists i, i < List.length (nt_emailConfigs n) /\ ve i = None) /\
  (b = true -> exists i name cfg,
     nth_error (nt_emailConfigs n) i = Some (name, cfg) /\ ve i = None /\
     (forall j, j < i -> ve j <> None) /\
     nt_emailTransporter n' = Some cfg /\ nt_currentConfigIndex n' = i) /\
  (b = false -> nt_emailTransporter n' = nt_emailTransporter n /\
     nt_currentConfigIndex n' = nt_currentConfigIndex n).
Proof.
  unfold verifyEmailConnection.
  pose proof (verify_loop_spec ve (nt_emailConfigs n) 0 n) as H.
  destruct (verify_loop ve (nt_emailConfigs n) 0 n) as [b n'].
  exact H.
Qed.

(* ------------------------------------------------------------------ *)
(** ** test-email.js *)

(** [transporter.verify()] of configuration [j] resolved. *)
Definition verified (ve : nat -> option string) (j : nat) : bool :=
  match ve j with None => true | Some _ => false end.

Lemma test_loop_spec ve se mid cfgs i sent out :
  let '(res, sent', _) := test_loop ve se mid cfgs i sent out in
  (forall j name c, nth_error cfgs j = Some (name, c) ->
     ve (i + j) = None -> se (i + j) = None ->
     (forall k, k < j -> ve (i + k) <> None \/ se (i + k) <> None) ->
     res = Some c /\ sent' = (sent ++ filter (verified ve) (seq i (S j)))%list) /\
  ((forall j, j < List.length cfgs -> ve (i + j) <> None \/ se (i + j) <> None) ->
     res = None /\
     sent' = (sent ++ filter (verified ve) (seq i (List.length cfgs)))%list).
Proof.
  revert i sent out.
  induction cfgs as [|[name0 c0] rest IH]; intros i sent out; cbn [test_loop].
  - split; [intros [|j]; discriminate|]. intros _. cbn.
    rewrite app_nil_r. auto.
  - destruct (ve i) as [m|] eqn:Hv; [|destruct (se i) as [m|] eqn:Hs].
    + specialize (IH (S i) sent
        (List.app (List.app out ["Trying " ++ name0 ++ "..."])
                  [name0 ++ " failed: " ++ m])).
      destruct (test_loop ve se mid rest (S i) _ _) as [[res sent'] out'].
      destruct IH as [IH1 IH2]. split.
      * intros [|j] nm c Hj Hve Hse Hk.
        -- rewrite Nat.add_0_r, Hv in Hve. discriminate.
        -- cbn in Hj. replace (i + S j) with (S i + j) in * by lia.
           destruct (IH1 j nm c Hj Hve Hse) as [Hr Hs'].
           ++ intros k Hk'. replace (S i + k) with (i + S k) by lia.
              apply Hk. lia.
           ++ split; [exact Hr|]. rewrite Hs'. cbn [seq filter].
              replace (verified ve i) with false
                by (unfold verified; rewrite Hv; reflexivity). reflexivity.
      * intros Hall. destruct IH2 as [Hr Hs'].
        -- intros j Hj. replace (S i + j) with (i + S j) by lia.
           apply Hall. cbn. lia.
        -- split; [exact Hr|]. rewrite Hs'. cbn [seq filter List.length].
           replace (verified ve i) with false
                by (unfold verified; rewrite Hv; reflexivity). reflexivity.
    + specialize (IH (S i) (List.app sent [i])
        (List.app (List.app (List.app out ["Trying " ++ name0 ++ "..."])
                    [name0 ++ " connection successful!"])
                  [name0 ++ " failed: " ++ m])).
      destruct (test_loop ve se mid rest (S i) _ _) as [[res sent'] out'].
      destruct IH as [IH1 IH2]. split.
      * intros [|j] nm c Hj Hve Hse Hk.
        -- rewrite Nat.add_0_r, Hs in Hse. discriminate.
        -- cbn in Hj. replace (i + S j) with (S i + j) in * by lia.
           destruct (IH1 j nm c Hj Hve Hse) as [Hr Hs'].
           ++ intros k Hk'. replace (S i + k) with (i + S k) by lia.
              apply Hk. lia.
           ++ split; [exact Hr|]. rewrite Hs'. cbn [seq filter].
              replace (verified ve i) with true
                by (unfold verified; rewrite Hv; reflexivity).
              rewrite <- app_assoc. reflexivity.
      * intros Hall. destruct IH2 as [Hr Hs'].
        -- intros j Hj. replace (S i + j) with (i + S j) by lia.
           apply Hall. cbn. lia.
        -- split; [exact Hr|]. rewrite Hs'. cbn [seq filter List.length].
           replace (verified ve i) with true
                by (unfold verified; rewrite Hv; reflexivity).
              rewrite <- app_assoc. reflexivity.
    + split.
      * intros [|j] nm c Hj Hve Hse Hk.
        -- cbn in Hj. injection Hj as _ <-. split; [reflexivity|].
           cbn. unfold verified. rewrite Hv. reflexivity.
        -- destruct (Hk 0 ltac:(lia)) as [H|H]; rewrite Nat.add_0_r in H;
             contradiction.
      * intros Hall. destruct (Hall 0 ltac:(cbn; lia)) as [H|H];
          rewrite Nat.add_0_r in H; contradiction.
Qed.

(** [testEmail()] returns the configuration of the first index whose
    [verify()] and test mail both succeed, and [null] when no index
    does; a test mail is handed to [sendMail] for exactly the verified
    configurations up to that index (all three when none succeeds). *)
Theorem testEmail_first_working ve se mid cfg :
  let cfgs := test_config_list (EMAIL_USER cfg) (EMAIL_PASS cfg) in
  let '(res, sent, _) := testEmail ve se mid cfg in
  (forall i name c, nth_error cfgs i = Some (name, c) ->
     ve i = None -> se i = None ->
     (forall j, j < i -> ve j <> None \/ se j <> None) ->
     res = Some c /\ sent = filter (verified ve) (seq 0 (S i))) /\
  ((forall i, i < List.length cfgs -> ve i <> None \/ se i <> None) ->
     res = None /\ sent = filter (verified ve) (seq 0 (List.length cfgs))).
Proof.
  intro cfgs. unfold testEmail.
  pose proof (test_loop_spec ve se mid cfgs 0 [] ["Testing email configuration..."])
    as H.
  destruct (test_loop ve se mid _ 0 [] _) as [[res sent] out].
  exact H.
Qed.

(* ------------------------------------------------------------------ *)
(** ** The message history: [new Set], [new Map], load, save, [stop] *)

(** [map.get(k)] on a [Map] kept as a list of entries. *)
Definition map_get (k : string) (m : list (string * string)) : option string :=
  match find (fun kv => String.eqb k (fst kv)) m with
  | Some kv => Some (snd kv)
  | None => None
  end.

(** The value of the last entry for [k] in an entry list. *)
Definition last_value (k : string) (entries : list (string * string))
    : option string :=
  fold_left (fun acc kv => if String.eqb k (fst kv) then Some (snd kv) else acc)
    entries None.

Lemma existsb_eqb_false x l : existsb (String.eqb x) l = false <-> ~ In x l.
Proof.
  rewrite <- not_true_iff_false, existsb_exists. split.
  - intros H Hin. apply H. exists x. split; [exact Hin | apply String.eqb_refl].
  - intros H (y & Hy & E). apply String.eqb_eq in E. subst y. contradiction.
Qed.

Lemma set_add_In s x y : In y (set_add s x) <-> In y s \/ y = x.
Proof.
  unfold set_add. destruct (existsb (String.eqb x) s) eqn:E.
  - apply existsb_exists in E as (z & Hz & Ez). apply String.eqb_eq in Ez.
    subst z. split; [auto | intros [H | ->]; auto].
  - rewrite in_app_iff. cbn. split; intros [H|H]; auto; destruct H as [H|[]]; auto.
Qed.

Lemma set_add_NoDup s x : NoDup s -> NoDup (set_add s x).
Proof.
  intro H. unfold set_add. destruct (existsb (String.eqb x) s) eqn:E; [exact H|].
  apply existsb_eqb_false in E. apply NoDup_app; [exact H | constructor; [intros []|constructor] |].
  intros a Ha [<-|[]]. contradiction.
Qed.

Lemma fold_set_add_spec l acc :
  NoDup acc ->
  NoDup (fold_left set_add l acc) /\
  (forall y, In y (fold_left set_add l acc) <-> In y acc \/ In y l).
Proof.
  revert acc. induction l as [|x l IH]; intros acc Hacc; cbn.
  - split; [exact Hacc | intro y; tauto].
  - destruct (IH (set_add acc x) (set_add_NoDup _ _ Hacc)) as [H1 H2].
    split; [exact H1|]. intro y. rewrite H2, set_add_In. intuition.
Qed.

Lemma fold_set_add_NoDup l acc :
  NoDup (acc ++ l) -> fold_left set_add l acc = (acc ++ l)%list.
Proof.
  revert acc. induction l as [|x l IH]; intros acc H; cbn.
  - rewrite app_nil_r. reflexivity.
  - assert (Hx : ~ In x acc).
    { intro Hin. apply (NoDup_remove_2 acc l x H). apply in_or_app. left. exact Hin. }
    unfold set_add at 2. rewrite (proj2 (existsb_eqb_false x acc) Hx).
    rewrite IH; [rewrite <- app_assoc; reflexivity|].
    rewrite <- app_assoc. exact H.
Qed.

(** [new Set(Array.from(set))] is [set]. *)
Lemma set_of_idem l : set_of (set_of l) = set_of l.
Proof.
  unfold set_of at 1. apply fold_set_add_NoDup.
  apply (fold_set_add_spec l []). constructor.
Qed.

Lemma map_set_keys m k v :
  map fst (map_set m k v) =
  if existsb (String.eqb k) (map fst m) then map fst m else (map fst m ++ [k])%list.
Proof.
  induction m as [|[k' v'] rest IH]; cbn; [reflexivity|].
  destruct (String.eqb k k') eqn:E; cbn.
  - apply String.eqb_eq in E. subst. reflexivity.
  - rewrite IH. destruct (existsb (String.eqb k) (map fst rest)); reflexivity.
Qed.

Lemma map_set_fresh m k v :
  ~ In k (map fst m) -> map_set m k v = (m ++ [(k, v)])%list.
Proof.
  induction m as [|[k' v'] rest IH]; intro H; cbn; [reflexivity|].
  destruct (String.eqb k k') eqn:E.
  - apply String.eqb_eq in E. subst. exfalso. apply H. left. reflexivity.
  - rewrite IH; [reflexivity|]. intro Hin. apply H. right. exact Hin.
Qed.

Lemma map_set_get m k v k0 :
  map_get k0 (map_set m k v) =
  if String.eqb k0 k then Some v else map_get k0 m.
Proof.
  unfold map_get. induction m as [|[k' v'] rest IH]; cbn.
  - destruct (String.eqb k0 k); reflexivity.
  - destruct (String.eqb k k') eqn:E; cbn.
    + apply String.eqb_eq in E. subst k'.
      destruct (String.eqb k0 k); reflexivity.
    + destruct (String.eqb k0 k') eqn:E0.
      * apply String.eqb_eq in E0. subst k0. rewrite String.eqb_sym, E. reflexivity.
      * exact IH.
Qed.

Lemma fold_map_set_spec entries acc :
  NoDup (map fst acc) ->
  let m := fold_left (fun m kv => map_set m (fst kv) (snd kv)) entries acc in
  NoDup (map fst m) /\
  forall k, map_get k m =
    fold_left (fun o kv => if String.eqb k (fst kv) then Some (snd kv) else o)
      entries (map_get k acc).
Proof.
  revert acc. induction entries as [|[k v] rest IH]; intros acc Hacc; cbn.
  - auto.
  - assert (Hn : NoDup (map fst (map_set acc k v))).
    { rewrite map_set_keys. destruct (existsb (String.eqb k) (map fst acc)) eqn:E;
        [exact Hacc|].
      apply existsb_eqb_false in E. apply NoDup_app; [exact Hacc | repeat constructor; intros []|].
      intros a Ha [<-|[]]. contradiction. }
    destruct (IH _ Hn) as [H1 H2]. split; [exact H1|].
    intro k0. rewrite H2, map_set_get. reflexivity.
Qed.

Lemma fold_map_set_NoDup entries acc :
  NoDup (map fst (acc ++ entries)) ->
  fold_left (fun m kv => map_set m (fst kv) (snd kv)) entries acc = (acc ++ entries)%list.
Proof.
  revert acc. induction entries as [|[k v] rest IH]; intros acc H; cbn.
  - rewrite app_nil_r. reflexivity.
  - rewrite map_app in H. cbn in H.
    assert (Hk : ~ In k (map fst acc)).
    { intro Hin. apply (NoDup_remove_2 _ _ _ H). apply in_or_app. left. exact Hin. }
    rewrite map_set_fresh by exact Hk.
    rewrite IH; [rewrite <- app_assoc; reflexivity|].
    rewrite <- app_assoc, map_app. exact H.
Qed.

(** [new Map(Array.from(map.entries()))] is [map]. *)
Lemma map_of_idem l : map_of (map_of l) = map_of l.
Proof.
  unfold map_of at 1. apply fold_map_set_NoDup.
  apply (fold_map_set_spec l []). constructor.
Qed.

(** The history fields after the constructor. *)
Lemma new_notifier_history decode cfg file :
  nt_processedMessages (new_notifier decode cfg file) =
    match file with
    | None => None
    | Some f =>
        match match f with Written ps ms _ => DecodeOk ps ms | Foreign s => decode s end with
        | DecodeFailed _ => None
        | DecodeSetOnly ps _ => Some (set_of ps)
        | DecodeOk ps _ => Some (set_of ps)
        end
    end /\
  nt_lastMessageStates (new_notifier decode cfg file) =
    match file with
    | None => None
    | Some f =>
        match match f with Written ps ms _ => DecodeOk ps ms | Foreign s => decode s end with
        | DecodeOk _ ms => Some (map_of ms)
        | _ => None
        end
    end.
Proof.
  unfold new_notifier, loadProcessedMessages.
  destruct file as [f|]; [|split; reflexivity].
  destruct (match f with Written ps ms _ => DecodeOk ps ms | Foreign s => decode s end);
    split; reflexivity.
Qed.

Lemma stop_file now we ce file n :
  let '(_, _, f') := stop now we ce file n in
  f' = fst (saveProcessedMessages now we file (nt_set_running false n)).
Proof.
  unfold stop. destruct (saveProcessedMessages now we file (nt_set_running false n)) as [f n1].
  cbn. destruct (nt_browser n1), ce; reflexivity.
Qed.

Lemma stop_notifier now we ce file n :
  let '(_, n', _) := stop now we ce file n in
  nt_isRunning n' = false /\
  (forall m, In m (nt_logs (snd (saveProcessedMessages now we file (nt_set_running false n)))) ->
     In m (nt_logs n')).
Proof.
  unfold stop.
  assert (Hr : nt_isRunning (snd (saveProcessedMessages now we file (nt_set_running false n))) = false).
  { unfold saveProcessedMessages. cbn.
    destruct (nt_processedMessages n); [destruct (nt_lastMessageStates n); [destruct we|]|];
      reflexivity. }
  destruct (saveProcessedMessages now we file (nt_set_running false n)) as [f n1].
  cbn in Hr |- *.
  destruct (nt_browser n1), ce; cbn; split; auto; intros m Hm;
    rewrite ?in_app_iff; auto.
Qed.

Lemma save_file_cases now we file n :
  fst (saveProcessedMessages now we file n) = file \/
  (exists ps ms, nt_processedMessages n = Some ps /\
    nt_lastMessageStates n = Some ms /\ we = WriteDone /\
    fst (saveProcessedMessages now we file n) = Some (Written ps ms now)) \/
  (exists ps ms msg c, nt_processedMessages n = Some ps /\
    nt_lastMessageStates n = Some ms /\ we = WriteThrew msg (Some c) /\
    fst (saveProcessedMessages now we file n) = Some (Foreign c)).
Proof.
  unfold saveProcessedMessages.
  destruct (nt_processedMessages n) as [ps|]; [|left; reflexivity].
  destruct (nt_lastMessageStates n) as [ms|]; [|left; reflexivity].
  destruct we as [|msg [c|]].
  - right; left. exists ps, ms. repeat split.
  - right; right. exists ps, ms, msg, c. repeat split.
  - left; reflexivity.
Qed.

(** Loading a history file that parses: [processedMessages] holds each
    listed message once, and [lastMessageStates] maps each chat key to
    the value of its last entry in the file. *)
Theorem load_history_set_and_map decode cfg file ps ms :
  (exists t, file = Some (Written ps ms t)) \/
  (exists s, file = Some (Foreign s) /\ decode s = DecodeOk ps ms) ->
  let n := new_notifier decode cfg file in
  (exists p, nt_processedMessages n = Some p /\ NoDup p /\
     forall x, In x p <-> In x ps) /\
  (exists m, nt_lastMessageStates n = Some m /\ NoDup (map fst m) /\
     forall k, map_get k m = last_value k ms).
Proof.
  intros Hf n. destruct (new_notifier_history decode cfg file) as [Hp Hs].
  assert (Hd : nt_processedMessages n = Some (set_of ps) /\
               nt_lastMessageStates n = Some (map_of ms)).
  { unfold n. rewrite Hp, Hs.
    destruct Hf as [(t & ->) | (s & -> & Hd)]; cbn; [|rewrite Hd]; split; reflexivity. }
  destruct Hd as [H1 H2]. split.
  - exists (set_of ps). split; [exact H1|].
    destruct (fold_set_add_spec ps [] ltac:(constructor)) as [N I].
    split; [exact N|]. intro x. unfold set_of. rewrite I. cbn. tauto.
  - exists (map_of ms). split; [exact H2|].
    destruct (fold_map_set_spec ms [] ltac:(constructor)) as [N G].
    split; [exact N|]. intro k. unfold map_of. rewrite G. reflexivity.
Qed.

(** Unless the write throws after emptying the file, [stop()] saves
    the history the constructor loaded so that a new notifier loads the
    same [processedMessages] and [lastMessageStates]: either the file is
    rewritten with them, or (nothing loaded, only the set loaded, or the
    write throws before opening the file) the file is left as it was. *)
Theorem history_survives_restart decode now_iso write_outcome close_error
    cfg cfg' file n :
  (forall msg c, write_outcome <> WriteThrew msg (Some c)) ->
  nt_processedMessages n = nt_processedMessages (new_notifier decode cfg file) ->
  nt_lastMessageStates n = nt_lastMessageStates (new_notifier decode cfg file) ->
  let '(_, _, file') := stop now_iso write_outcome close_error file n in
  nt_processedMessages (new_notifier decode cfg' file') = nt_processedMessages n /\
  nt_lastMessageStates (new_notifier decode cfg' file') = nt_lastMessageStates n.
Proof.
  intros Hw Hp Hs.
  pose proof (stop_file now_iso write_outcome close_error file n) as F.
  destruct (stop now_iso write_outcome close_error file n) as [[r n'] f'].
  subst f'.
  destruct (save_file_cases now_iso write_outcome file (nt_set_running false n))
    as [E | [(ps & ms & Ep & Es & _ & E) | (ps & ms & msg & c & _ & _ & Ew & _)]];
    [rewrite E | rewrite E | exfalso; exact (Hw msg c Ew)].
  - rewrite Hp, Hs, (proj1 (new_notifier_history decode cfg' file)),
      (proj2 (new_notifier_history decode cfg' file)),
      (proj1 (new_notifier_history decode cfg file)),
      (proj2 (new_notifier_history decode cfg file)).
    split; reflexivity.
  - cbn [nt_set_running nt_processedMessages nt_lastMessageStates] in Ep, Es.
    rewrite Ep, Es.
    rewrite (proj1 (new_notifier_history decode cfg' _)),
      (proj2 (new_notifier_history decode cfg' _)). cbn.
    rewrite Hp, (proj1 (new_notifier_history decode cfg file)) in Ep.
    rewrite Hs, (proj2 (new_notifier_history decode cfg file)) in Es.
    destruct file as [[ps0 ms0 t|s]|]; [|destruct (decode s) as [m|ps0 m|ps0 ms0]|];
      cbn in Ep, Es; try discriminate.
    + injection Ep as <-. injection Es as <-.
      rewrite set_of_idem, map_of_idem. split; reflexivity.
    + injection Ep as <-. injection Es as <-.
      rewrite set_of_idem, map_of_idem. split; reflexivity.
Qed.

(** A first run (no history file, or one that does not parse) never
    creates the history file: [processedMessages] stays unassigned, so
    the save in [stop()] throws; the error is logged, the file is left
    as it was, and [stop()] still clears [isRunning]. *)
Theorem fresh_history_never_saved decode now_iso write_outcome close_error
    cfg file n :
  (file = None \/
   exists s msg, file = Some (Foreign s) /\ decode s = DecodeFailed msg) ->
  nt_processedMessages n = nt_processedMessages (new_notifier decode cfg file) ->
  nt_processedMessages (new_notifier decode cfg file) = None /\
  let '(_, n', file') := stop now_iso write_outcome close_error file n in
  file' = file /\ nt_isRunning n' = false /\
  In "Error saving message history: undefined is not iterable (cannot read property Symbol(Symbol.iterator))"
    (nt_logs n').
Proof.
  intros Hf Hn.
  assert (H0 : nt_processedMessages (new_notifier decode cfg file) = None).
  { rewrite (proj1 (new_notifier_history decode cfg file)).
    destruct Hf as [-> | (s & msg & -> & Hd)]; cbn; [|rewrite Hd]; reflexivity. }
  split; [exact H0|]. rewrite H0 in Hn.
  pose proof (stop_file now_iso write_outcome close_error file n) as F.
  pose proof (stop_notifier now_iso write_outcome close_error file n) as G.
  destruct (stop now_iso write_outcome close_error file n) as [[r n'] f'].
  unfold saveProcessedMessages in F, G.
  cbn [nt_set_running nt_processedMessages] in F, G. rewrite Hn in F, G.
  destruct G as [G1 G2]. split; [exact F|]. split; [exact G1|].
  apply G2. cbn. apply in_or_app. right. left. reflexivity.
Qed.

(** A save whose write throws after the ['w'] open leaves the file
    truncated.  When what is left does not parse, the next notifier
    loads no history; its own [stop()] then cannot save either, and the
    truncated file stays as it is: the history is lost for good. *)
Theorem truncated_history_lost decode now_iso now_iso' msg c we' ce ce'
    cfg file n ps ms dmsg :
  nt_processedMessages n = Some ps -> nt_lastMessageStates n = Some ms ->
  decode c = DecodeFailed dmsg ->
  let '(_, _, file1) := stop now_iso (WriteThrew msg (Some c)) ce file n in
  file1 = Some (Foreign c) /\
  let n1 := new_notifier decode cfg file1 in
  nt_processedMessages n1 = None /\ nt_lastMessageStates n1 = None /\
  let '(_, _, file2) := stop now_iso' we' ce' file1 n1 in
  file2 = Some (Foreign c).
Proof.
  intros Hp Hs Hd.
  pose proof (stop_file now_iso (WriteThrew msg (Some c)) ce file n) as F.
  destruct (stop now_iso (WriteThrew msg (Some c)) ce file n) as [[r n'] f1].
  unfold saveProcessedMessages in F.
  cbn [nt_set_running nt_processedMessages nt_lastMessageStates] in F.
  rewrite Hp, Hs in F. cbn in F. subst f1.
  split; [reflexivity|]. cbv zeta.
  assert (H1 : nt_processedMessages (new_notifier decode cfg (Some (Foreign c))) = None)
    by (rewrite (proj1 (new_notifier_history decode cfg _)); cbn; rewrite Hd; reflexivity).
  assert (H2 : nt_lastMessageStates (new_notifier decode cfg (Some (Foreign c))) = None)
    by (rewrite (proj2 (new_notifier_history decode cfg _)); cbn; rewrite Hd; reflexivity).
  split; [exact H1|]. split; [exact H2|].
  pose proof (stop_file now_iso' we' ce' (Some (Foreign c))
                (new_notifier decode cfg (Some (Foreign c)))) as G.
  destruct (stop now_iso' we' ce' (Some (Foreign c))
              (new_notifier decode cfg (Some (Foreign c)))) as [[r2 n2] f2].
  unfold saveProcessedMessages in G.
  cbn [nt_set_running nt_processedMessages] in G. rewrite H1 in G. exact G.
Qed.

(* ------------------------------------------------------------------ *)
(** ** [content.replace(/KEY=.*/, repl)] in [updateEnvConfig] *)

Lemma string_append_assoc (a b c : string) : (a ++ b) ++ c = a ++ b ++ c.
Proof. induction a as [|x a IH]; cbn; [reflexivity | rewrite IH; reflexivity]. Qed.

Lemma list_ascii_of_string_append a b :
  list_ascii_of_string (a ++ b) = (list_ascii_of_string a ++ list_ascii_of_string b)%list.
Proof. induction a as [|x a IH]; cbn; [reflexivity | rewrite IH; reflexivity]. Qed.

Lemma firstn_length_app {A} (l1 l2 : list A) : firstn (List.length l1) (l1 ++ l2) = l1.
Proof. induction l1 as [|x l1 IH]; cbn; [reflexivity | rewrite IH; reflexivity]. Qed.

Lemma skipn_length_app {A} (l1 l2 : list A) : skipn (List.length l1) (l1 ++ l2) = l2.
Proof. induction l1 as [|x l1 IH]; cbn; [reflexivity | exact IH]. Qed.

Lemma prefixb_self p y : JsString.prefixb p (p ++ y) = true.
Proof. induction p as [|a p IH]; cbn; [reflexivity | rewrite Ascii.eqb_refl; exact IH]. Qed.

Lemma prefixb_app p x y :
  List.length p <= List.length x -> JsString.prefixb p (x ++ y) = JsString.prefixb p x.
Proof.
  revert x. induction p as [|a p IH]; intros x H; [destruct x; reflexivity|].
  destruct x as [|b x]; cbn in H; [lia|]. cbn. rewrite IH by lia. reflexivity.
Qed.

Lemma find_sub_eq p s :
  find_sub p s =
  if JsString.prefixb p s then Some 0
  else match s with [] => None | _ :: s' => option_map S (find_sub p s') end.
Proof. destruct s; reflexivity. Qed.

(** The first occurrence of [p] in [pre ++ p ++ rest] is at [|pre|] when
    no occurrence of [p] starts inside [pre]. *)
Lemma find_sub_first p pre rest :
  p <> [] -> JsString.containsb p (pre ++ removelast p) = false ->
  find_sub p (pre ++ p ++ rest) = Some (List.length pre).
Proof.
  intros Hp. induction pre as [|c pre IH]; intro Hc.
  - rewrite find_sub_eq. cbn [List.app]. rewrite prefixb_self. reflexivity.
  - cbn [List.app JsString.containsb] in Hc. apply orb_false_iff in Hc as [H1 H2].
    assert (Hs : (c :: pre ++ p ++ rest =
                  (c :: pre ++ removelast p) ++ (last p "0"%char :: rest))%list).
    { rewrite (@app_removelast_last ascii p "0"%char Hp) at 1. cbn [List.app].
      rewrite <- !app_assoc. reflexivity. }
    assert (Hf : JsString.prefixb p (c :: pre ++ p ++ rest)%list = false).
    { rewrite Hs, prefixb_app; [exact H1|]. cbn [List.length]. rewrite length_app.
      pose proof (f_equal (@List.length ascii)
                    (@app_removelast_last ascii p "0"%char Hp)) as L.
      rewrite length_app in L. cbn in L. lia. }
    rewrite find_sub_eq. cbn [List.app]. rewrite Hf. cbn [option_map].
    rewrite (IH H2). reflexivity.
Qed.

(** Line breaks, where [.] stops. *)
Definition is_eol (c : ascii) : bool :=
  Ascii.eqb c "010"%char || Ascii.eqb c "013"%char.

Definition no_eol (s : string) : bool :=
  forallb (fun c => negb (is_eol c)) (list_ascii_of_string s).

(** [s] is empty or starts with a line break. *)
Definition line_end (s : string) : bool :=
  match s with EmptyString => true | String c _ => is_eol c end.

Definition no_dollar (s : string) : bool :=
  forallb (fun c => negb (Ascii.eqb c "$")) (list_ascii_of_string s).

Lemma line_len_app old post :
  no_eol old = true -> line_end post = true ->
  line_len (list_ascii_of_string old ++ list_ascii_of_string post) =
  List.length (list_ascii_of_string old).
Proof.
  unfold no_eol. intros Ho Hp.
  induction (list_ascii_of_string old) as [|c r IH]; cbn.
  - destruct post as [|c s]; cbn in *; [reflexivity|]. unfold is_eol in Hp.
    rewrite Hp. reflexivity.
  - cbn in Ho. apply andb_prop in Ho as [Hc Hr]. apply negb_true_iff in Hc.
    unfold is_eol in Hc. rewrite Hc, IH by exact Hr. reflexivity.
Qed.

Lemma get_subst_cons c tl m pr po :
  Ascii.eqb c "$" = false ->
  get_subst (c :: tl) m pr po = c :: get_subst tl m pr po.
Proof. intro H. destruct tl; cbn; [reflexivity | rewrite H; reflexivity]. Qed.

Lemma get_subst_plain t m pr po :
  forallb (fun c => negb (Ascii.eqb c "$")) t = true -> get_subst t m pr po = t.
Proof.
  induction t as [|c t IH]; intro H; [reflexivity|].
  cbn in H. apply andb_prop in H as [Hc Ht]. apply negb_true_iff in Hc.
  rewrite get_subst_cons by exact Hc. rewrite IH by exact Ht. reflexivity.
Qed.

Lemma get_subst_amp t1 t2 m pr po :
  forallb (fun c => negb (Ascii.eqb c "$")) t1 = true ->
  get_subst (t1 ++ "$"%char :: "&"%char :: t2) m pr po =
  (t1 ++ m ++ get_subst t2 m pr po)%list.
Proof.
  induction t1 as [|c t1 IH]; intro H; [reflexivity|].
  cbn in H. apply andb_prop in H as [Hc Ht]. apply negb_true_iff in Hc.
  cbn [List.app]. rewrite get_subst_cons by exact Hc. rewrite IH by exact Ht.
  reflexivity.
Qed.

(** [replace_key] on content whose first [KEY=] is followed by [old]
    up to the end of its line: the matched text and the rest, as
    lists. *)
Lemma replace_key_split key repl pre old post :
  JsString.includes (pre ++ key) (key ++ "=") = false ->
  no_eol old = true -> line_end post = true ->
  replace_key key repl (pre ++ key ++ "=" ++ old ++ post) =
  string_of_list_ascii
    (list_ascii_of_string pre ++
     get_subst (list_ascii_of_string repl)
       (list_ascii_of_string (key ++ "=" ++ old)) (list_ascii_of_string pre)
       (list_ascii_of_string post) ++ list_ascii_of_string post).
Proof.
  intros Hinc Hold Hpost. unfold replace_key.
  assert (HK : list_ascii_of_string (key ++ "=") =
               (list_ascii_of_string key ++ ["="%char])%list)
    by (rewrite list_ascii_of_string_append; reflexivity).
  assert (Hl : list_ascii_of_string (pre ++ key ++ "=" ++ old ++ post) =
               (list_ascii_of_string pre ++ list_ascii_of_string (key ++ "=") ++
                list_ascii_of_string old ++ list_ascii_of_string post)%list)
    by (rewrite !list_ascii_of_string_append, <- !app_assoc; reflexivity).
  rewrite Hl, find_sub_first.
  - rewrite (firstn_length_app (list_ascii_of_string pre)),
      (skipn_length_app (list_ascii_of_string pre)),
      (skipn_length_app (list_ascii_of_string (key ++ "="))).
    rewrite line_len_app by assumption.
    rewrite (app_assoc (list_ascii_of_string (key ++ "="))), <- length_app,
      (firstn_length_app (list_ascii_of_string (key ++ "=") ++ list_ascii_of_string old)),
      (skipn_length_app (list_ascii_of_string (key ++ "=") ++ list_ascii_of_string old)).
    rewrite <- !list_ascii_of_string_append, string_append_assoc. reflexivity.
  - rewrite HK. destruct (list_ascii_of_string key); discriminate.
  - rewrite HK, removelast_last, <- list_ascii_of_string_append. unfold JsString.includes in Hinc. rewrite HK in Hinc. exact Hinc.
Qed.

(** [updateEnvConfig] rewrites a [KEY=...] line: when the first [KEY=]
    of the content starts a line [KEY=old] and the new value has no
    [$], the line becomes [KEY=value] and the rest of the content is
    kept. *)
Theorem replace_key_sets_line key v pre old post :
  no_dollar (key ++ "=" ++ v) = true ->
  JsString.includes (pre ++ key) (key ++ "=") = false ->
  no_eol old = true -> line_end post = true ->
  replace_key key (key ++ "=" ++ v) (pre ++ key ++ "=" ++ old ++ post) =
  pre ++ key ++ "=" ++ v ++ post.
Proof.
  intros Hd Hinc Hold Hpost. rewrite replace_key_split by assumption.
  rewrite get_subst_plain by exact Hd.
  rewrite <- !list_ascii_of_string_append, string_of_list_ascii_of_string.
  rewrite !string_append_assoc. reflexivity.
Qed.

(** A [$&] in the new value (which the address check of [/api/start]
    accepts, as in [a$&b@example.com]) is replaced by the whole matched
    line [KEY=old]: the old line is spliced into the new one. *)
Theorem replace_key_dollar_amp key a b pre old post :
  no_dollar (key ++ "=" ++ a) = true -> no_dollar b = true ->
  JsString.includes (pre ++ key) (key ++ "=") = false ->
  no_eol old = true -> line_end post = true ->
  replace_key key (key ++ "=" ++ a ++ "$&" ++ b) (pre ++ key ++ "=" ++ old ++ post) =
  pre ++ key ++ "=" ++ a ++ key ++ "=" ++ old ++ b ++ post /\
  email_test "a$&b@example.com" = true.
Proof.
  intros Ha Hb Hinc Hold Hpost. split; [|reflexivity].
  rewrite replace_key_split by assumption.
  replace (key ++ "=" ++ a ++ "$&" ++ b) with ((key ++ "=" ++ a) ++ "$&" ++ b)
    by (rewrite !string_append_assoc; reflexivity).
  rewrite list_ascii_of_string_append.
  change (list_ascii_of_string ("$&" ++ b))
    with ("$"%char :: "&"%char :: list_ascii_of_string b).
  rewrite get_subst_amp by exact Ha. rewrite get_subst_plain by exact Hb.
  rewrite <- !list_ascii_of_string_append, string_of_list_ascii_of_string.
  rewrite !string_append_assoc. reflexivity.
Qed.

(* ------------------------------------------------------------------ *)
(** ** server.js *)

(** A [/api/start] body that passes the checks: both fields present and
    matching the phone and address patterns. *)
Definition valid_body (b : StartBody) : Prop :=
  exists phone email, phoneNumber b = Some phone /\ emailAddress b = Some email /\
    phone_test phone = true /\ email_test email = true.

Lemma phone_test_truthy p : phone_test p = true -> JsString.truthy p = true.
Proof. destruct p; [discriminate | reflexivity]. Qed.

Lemma email_test_truthy e : email_test e = true -> JsString.truthy e = true.
Proof. destruct e; [discriminate | reflexivity]. Qed.

Lemma post_start_valid dp b s phone email :
  phoneNumber b = Some phone -> emailAddress b = Some email ->
  phone_test phone = true -> email_test email = true ->
  srv_isRunning s = false -> env_file s <> None ->
  exists c, post_start dp WriteDone b s =
    srv_new_instance phone email (srv_set_env (Some c) (dotenv_config dp c (penv s)) s).
Proof.
  intros Hp He Hpt Het Hr Hf. unfold post_start. rewrite Hr, Hp, He.
  cbn [field_missing]. rewrite (phone_test_truthy _ Hpt), (email_test_truthy _ Het).
  rewrite Hpt, Het. unfold updateEnvConfig.
  destruct (env_file s) as [c0|]; [|contradiction]. eexists. reflexivity.
Qed.

Lemma post_start_penv dp wf b s :
  penv (post_start dp wf b s) = penv s \/
  exists c, penv (post_start dp wf b s) = dotenv_config dp c (penv s).
Proof.
  unfold post_start.
  destruct (srv_isRunning s); [left; reflexivity|].
  destruct (field_missing (phoneNumber b) || field_missing (emailAddress b));
    [left; reflexivity|].
  destruct (negb (phone_test _)); [left; reflexivity|].
  destruct (negb (email_test _)); [left; reflexivity|].
  unfold updateEnvConfig. destruct (env_file s) as [c|]; [|left; reflexivity].
  destruct wf as [|msg [c'|]];
    [right; eexists; reflexivity | left; reflexivity | left; reflexivity].
Qed.

Lemma env_get_app_some k pe l v :
  env_get k pe = Some v -> env_get k (pe ++ l)%list = Some v.
Proof.
  induction pe as [|[k' v'] rest IH]; cbn; [discriminate|].
  destruct (String.eqb k k'); auto.
Qed.

Lemma dotenv_config_keeps dp c pe k v :
  env_get k pe = Some v -> env_get k (dotenv_config dp c pe) = Some v.
Proof.
  unfold dotenv_config. revert pe.
  induction (dp c) as [|kv rest IH]; intros pe H; cbn; [exact H|].
  apply IH. destruct (env_get (fst kv) pe); [exact H|].
  apply env_get_app_some, H.
Qed.

Lemma srv_exit_penv c s : penv (srv_exit c s) = penv s.
Proof. unfold srv_exit. destruct (exited s); reflexivity. Qed.

Lemma emit_penv se ls s : penv (emit se ls s) = penv s.
Proof.
  revert s. induction ls as [|l rest IH]; intro s; cbn [emit]; [reflexivity|].
  destruct l; cbn [global_notifier].
  - apply srv_exit_penv.
  - destruct (notifier s) as [id|]; [destruct (srv_isRunning s)|];
      rewrite ?srv_exit_penv, ?IH; reflexivity.
Qed.

Lemma step_penv dp wf inf se s e k v :
  env_get k (penv s) = Some v ->
  env_get k (penv (step dp wf inf se s e)) = Some v.
Proof.
  intro H. unfold step. destruct (exited s); [exact H|].
  destruct e.
  - destruct (post_start_penv dp wf b s) as [-> | (c & ->)];
      [exact H | apply dotenv_config_keeps, H].
  - unfold init_settled. destruct (take_pending id (pending_init s)) as [[[p m] r]|];
      [destruct (initialize (inf id))|]; exact H.
  - unfold post_stop. destruct (notifier s); [destruct (srv_isRunning s)|]; exact H.
  - unfold stop_settled. destruct (existsb (Nat.eqb id) (pending_stop s));
      [destruct (se id)|]; exact H.
  - exact H.
  - unfold timer_fires. destruct (timers s); [exact H|]. cbn.
    destruct (notifier s); [destruct (srv_isRunning s)|]; exact H.
  - rewrite emit_penv. exact H.
Qed.

(** [process.env] keeps every variable it already has, whatever the
    server does: the [dotenv] reload in [updateEnvConfig] never
    overrides a set variable, so the [EMAIL_TO] and [WHATSAPP_PHONE]
    written to [.env] by [/api/start] do not reach [process.env] (which
    the notifier reads) when they were already set. *)
Theorem process_env_keeps_values dp wf inf se s es k v :
  env_get k (penv s) = Some v ->
  env_get k (penv (run dp wf inf se s es)) = Some v.
Proof.
  unfold run. revert s. induction es as [|e es IH]; intros s H; cbn; [exact H|].
  apply IH, step_penv, H.
Qed.

(** [POST /api/start], by cause.  While monitoring runs, the only
    effect is the reply "already running".  Otherwise, a request
    without two valid fields only gets a 400 reply.  A valid request
    whose [.env] cannot be read, or whose write throws before the file
    is opened, only gets a 500 reply; when the write throws after the
    ['w'] open, the 500 reply comes with [.env] left holding what was
    written, and [process.env] is not reloaded.  A valid request whose
    [.env] is rewritten creates a new notifier: [.env] gets both keys
    replaced, the dotenv reload runs over [process.env], [initialize()]
    is pending, [isRunning] stays [false] and there is no reply yet. *)
Theorem post_start_outcomes dp wf b s :
  let s' := post_start dp wf b s in
  (srv_isRunning s = true ->
     s' = srv_reply (JsonResult 200 false "WhatsApp monitoring is already running!") s) /\
  (srv_isRunning s = false -> ~ valid_body b ->
     exists msg, s' = srv_reply (JsonResult 400 false msg) s) /\
  (srv_isRunning s = false -> valid_body b ->
     (env_file s = None \/ exists msg, wf = WriteThrew msg None) ->
     s' = srv_reply (JsonResult 500 false "Failed to update configuration. Please try again.") s) /\
  (forall msg c, srv_isRunning s = false -> valid_body b -> env_file s <> None ->
     wf = WriteThrew msg (Some c) ->
     s' = srv_reply (JsonResult 500 false "Failed to update configuration. Please try again.")
            (srv_set_env (Some c) (penv s) s)) /\
  (forall phone email content,
     srv_isRunning s = false -> wf = WriteDone ->
     phoneNumber b = Some phone -> emailAddress b = Some email ->
     phone_test phone = true -> email_test email = true ->
     env_file s = Some content ->
     let content' := replace_key "EMAIL_TO" ("EMAIL_TO=" ++ email)
                       (replace_key "WHATSAPP_PHONE" ("WHATSAPP_PHONE=" ++ phone) content) in
     env_file s' = Some content' /\ penv s' = dotenv_config dp content' (penv s) /\
     notifier s' = Some (next_id s) /\ next_id s' = S (next_id s) /\
     pending_init s' = (pending_init s ++ [(next_id s, phone, email)])%list /\
     replies s' = replies s /\ srv_isRunning s' = false).
Proof.
  cbv zeta. split; [|split; [|split; [|split]]].
  - intro Hr. unfold post_start. rewrite Hr. reflexivity.
  - intros Hr Hv. unfold post_start. rewrite Hr.
    destruct (field_missing (phoneNumber b) || field_missing (emailAddress b)) eqn:Hm;
      [eexists; reflexivity|].
    destruct (phoneNumber b) as [phone|] eqn:Hp; [|discriminate].
    destruct (emailAddress b) as [email|] eqn:He;
      [|cbn in Hm; rewrite orb_true_r in Hm; discriminate].
    destruct (phone_test phone) eqn:Hpt; [|eexists; reflexivity].
    destruct (email_test email) eqn:Het; [|eexists; reflexivity].
    exfalso. apply Hv. exists phone, email. auto.
  - intros Hr (phone & email & Hp & He & Hpt & Het) Hf. unfold post_start.
    rewrite Hr, Hp, He. cbn [field_missing].
    rewrite (phone_test_truthy _ Hpt), (email_test_truthy _ Het), Hpt, Het.
    unfold updateEnvConfig.
    destruct Hf as [-> | (msg & ->)]; [reflexivity|].
    destruct (env_file s); reflexivity.
  - intros msg c Hr (phone & email & Hp & He & Hpt & Het) Hf Hw. unfold post_start.
    rewrite Hr, Hp, He. cbn [field_missing].
    rewrite (phone_test_truthy _ Hpt), (email_test_truthy _ Het), Hpt, Het.
    unfold updateEnvConfig. rewrite Hw.
    destruct (env_file s); [reflexivity | contradiction].
  - intros phone email content Hr Hw Hp He Hpt Het Hf. unfold post_start.
    rewrite Hr, Hp, He. cbn [field_missing].
    rewrite (phone_test_truthy _ Hpt), (email_test_truthy _ Het), Hpt, Het.
    unfold updateEnvConfig. rewrite Hf, Hw. cbn.
    repeat split; try reflexivity. exact Hr.
Qed.

Lemma step_PostStart_valid dp inf se b s :
  exited s = None -> srv_isRunning s = false -> env_file s <> None ->
  valid_body b ->
  exists phone email c,
    step dp WriteDone inf se s (PostStart b) =
    srv_new_instance phone email (srv_set_env (Some c) (dotenv_config dp c (penv s)) s).
Proof.
  intros Hex Hr Hf (phone & email & Hp & He & Hpt & Het).
  destruct (post_start_valid dp b s phone email Hp He Hpt Het Hr Hf) as [c E].
  exists phone, email, c. unfold step. rewrite Hex. exact E.
Qed.

Lemma step_InitSettled_live dp wf inf se s id :
  exited s = None -> step dp wf inf se s (InitSettled id) = init_settled inf id s.
Proof. intro H. unfold step. rewrite H. reflexivity. Qed.

Lemma step_TimerFires_live dp wf inf se s :
  exited s = None -> step dp wf inf se s TimerFires = timer_fires s.
Proof. intro H. unfold step. rewrite H. reflexivity. Qed.

Lemma step_PostStop_live dp wf inf se s :
  exited s = None -> step dp wf inf se s PostStop = post_stop s.
Proof. intro H. unfold step. rewrite H. reflexivity. Qed.

Lemma init_settled_single inf id s phone email :
  pending_init s = [(id, phone, email)] ->
  init_settled inf id s =
  match initialize (inf id) with
  | Ok _ =>
      srv_set_timers (S (timers s))
        (srv_reply (JsonResult 200 true (success_message phone email))
           (srv_set_running true (srv_add_loop id (srv_set_pending [] (pending_stop s) s))))
  | Exn msg =>
      srv_reply (JsonResult 500 false ("Failed to start monitoring: " ++ msg))
        (srv_set_pending [] (pending_stop s) s)
  end.
Proof.
  intro Hp. unfold init_settled. rewrite Hp. cbn [take_pending].
  rewrite Nat.eqb_refl. reflexivity.
Qed.

(** [isRunning] is set only after [initialize()] settles, so a second
    valid [POST /api/start] arriving meanwhile is accepted too: a second
    notifier is created (and initialized), and [notifier] now names the
    second one. *)
Theorem second_start_while_first_pending dp inf se b1 b2 s :
  exited s = None -> srv_isRunning s = false -> env_file s <> None ->
  valid_body b1 -> valid_body b2 ->
  let s' := run dp WriteDone inf se s [PostStart b1; PostStart b2] in
  notifier s' = Some (S (next_id s)) /\ next_id s' = S (S (next_id s)) /\
  map (fun e => fst (fst e)) (pending_init s') =
    (map (fun e => fst (fst e)) (pending_init s) ++ [next_id s; S (next_id s)])%list /\
  srv_isRunning s' = false /\ replies s' = replies s.
Proof.
  intros Hex Hr Hf V1 V2. unfold run. cbn [fold_left].
  destruct (step_PostStart_valid dp inf se b1 s Hex Hr Hf V1) as (p1 & e1 & c1 & ->).
  match goal with
  | |- context [step _ _ _ _ ?s1 (PostStart b2)] =>
      destruct (step_PostStart_valid dp inf se b2 s1 Hex Hr
                  ltac:(cbn; discriminate) V2) as (p2 & e2 & c2 & ->)
  end.
  cbn. split; [reflexivity|]. split; [reflexivity|]. split; [|split; assumption || reflexivity].
  rewrite !map_app, <- app_assoc. reflexivity.
Qed.

(** After a successful start, the [startMonitoring()] called at the end
    of [initialize()] and the one of the 3-second timer both run: the
    same notifier gets two monitoring loops. *)
Theorem successful_start_two_loops dp inf se b s :
  exited s = None -> srv_isRunning s = false -> env_file s <> None ->
  pending_init s = [] -> valid_body b ->
  (forall st, In st init_steps -> inf (next_id s) st = false) ->
  let s' := run dp WriteDone inf se s [PostStart b; InitSettled (next_id s); TimerFires] in
  loops s' = (loops s ++ [next_id s; next_id s])%list /\
  srv_isRunning s' = true /\ notifier s' = Some (next_id s) /\ timers s' = timers s.
Proof.
  intros Hex Hr Hf Hpi V Hinit. unfold run. cbn [fold_left].
  destruct (step_PostStart_valid dp inf se b s Hex Hr Hf V) as (p & e & c & ->).
  assert (Hi : initialize (inf (next_id s)) = Ok tt)
    by (apply run_steps_ok; exact Hinit).
  match goal with
  | |- context [step _ _ _ _ ?x (InitSettled _)] =>
      rewrite (step_InitSettled_live dp WriteDone inf se x (next_id s) Hex)
  end.
  rewrite (init_settled_single inf (next_id s) _ p e)
    by (cbn; rewrite Hpi; reflexivity).
  rewrite Hi.
  match goal with
  | |- context [step _ _ _ _ ?x TimerFires] =>
      rewrite (step_TimerFires_live dp WriteDone inf se x Hex)
  end.
  cbn. rewrite <- app_assoc. repeat split; reflexivity.
Qed.

(** When [initialize()] rejects, [/api/start] replies with an error but
    leaves [notifier] set to the failed instance with [isRunning]
    [false]; [/api/stop] then answers that nothing is running and does
    not call [stop()] on it. *)
Theorem failed_start_not_stopped dp inf se b s :
  exited s = None -> srv_isRunning s = false -> env_file s <> None ->
  pending_init s = [] -> valid_body b ->
  (exists st, In st init_steps /\ inf (next_id s) st = true) ->
  let s' := run dp WriteDone inf se s [PostStart b; InitSettled (next_id s); PostStop] in
  notifier s' = Some (next_id s) /\ srv_isRunning s' = false /\
  stops s' = stops s /\ loops s' = loops s /\
  last (replies s') (JsonStatus false "") =
    JsonResult 200 false "No monitoring process is currently running.".
Proof.
  intros Hex Hr Hf Hpi V (st & Hin & Hst). unfold run. cbn [fold_left].
  destruct (step_PostStart_valid dp inf se b s Hex Hr Hf V) as (p & e & c & ->).
  assert (Hi : exists msg, initialize (inf (next_id s)) = Exn msg).
  { unfold initialize. destruct (run_steps (inf (next_id s)) init_steps) as [[]|msg] eqn:E.
    - apply run_steps_ok with (s := st) in E; [congruence | exact Hin].
    - eauto. }
  destruct Hi as [msg Hi].
  match goal with
  | |- context [step _ _ _ _ ?x (InitSettled _)] =>
      rewrite (step_InitSettled_live dp WriteDone inf se x (next_id s) Hex)
  end.
  rewrite (init_settled_single inf (next_id s) _ p e)
    by (cbn; rewrite Hpi; reflexivity).
  rewrite Hi.
  match goal with
  | |- context [step _ _ _ _ ?x PostStop] =>
      rewrite (step_PostStop_live dp WriteDone inf se x Hex)
  end.
  unfold post_stop. cbn. rewrite Hr.
  split; [reflexivity|]. split; [exact Hr|]. split; [reflexivity|].
  split; [reflexivity|]. apply last_last.
Qed.

(** On SIGINT or SIGTERM the server process exits with code 0 without
    calling [stop()] (so the history is not saved): app.js's listener,
    registered first, finds [global.notifier] unset and exits at
    once. *)
Theorem signal_exits_without_stop dp wf inf se s :
  exited s = None ->
  let s' := step dp wf inf se s Signal in
  exited s' = Some 0 /\ stops s' = stops s /\ pending_stop s' = pending_stop s.
Proof.
  intro Hex. unfold step. rewrite Hex. cbn. unfold srv_exit. rewrite Hex.
  repeat split; reflexivity.
Qed.

(** * Instances of the hypotheses of the properties above *)

Definition wit_decode (s : string) : Decoded := DecodeFailed s.

Definition wit_history : HistFile :=
  Written ["a"; "b"; "a"] [("k", "1"); ("j", "2"); ("k", "3")] "2026-01-01T00:00:00.000Z".

Definition wit_dotenv (c : string) : list (string * string) :=
  [("PORT", "3000")].

Definition wit_body : StartBody :=
  mkStartBody (Some "+905551234567") (Some "a@b.co").

Definition wit_body2 : StartBody :=
  mkStartBody (Some "+14155550100") (Some "c@d.org").

Definition wit_srv : Srv :=
  srv_init wit_dotenv (Some "WHATSAPP_PHONE=+1000&EMAIL_TO=old@example.com")
    [("EMAIL_USER", "watcher@example.com")].

Definition wit_no_fail (id : nat) (st : InitStep) : bool := false.

Definition wit_launch_fails (id : nat) (st : InitStep) : bool := launch_fails st.

Definition wit_stop_ok (id : nat) : option string := None.

Lemma load_history_set_and_map_witness :
  ((exists t, Some wit_history =
       Some (Written ["a"; "b"; "a"] [("k", "1"); ("j", "2"); ("k", "3")] t)) \/
   (exists s, Some wit_history = Some (Foreign s) /\
       wit_decode s = DecodeOk ["a"; "b"; "a"] [("k", "1"); ("j", "2"); ("k", "3")])) /\
  let n := new_notifier wit_decode full_cfg (Some wit_history) in
  (exists p, nt_processedMessages n = Some p /\ NoDup p /\
     forall x, In x p <-> In x ["a"; "b"; "a"]) /\
  (exists m, nt_lastMessageStates n = Some m /\ NoDup (map fst m) /\
     forall k, map_get k m = last_value k [("k", "1"); ("j", "2"); ("k", "3")]).
Proof.
  split.
  - left. exists "2026-01-01T00:00:00.000Z". reflexivity.
  - apply (load_history_set_and_map wit_decode full_cfg (Some wit_history)).
    left. exists "2026-01-01T00:00:00.000Z". reflexivity.
Defined.

Lemma history_survives_restart_witness :
  let n := new_notifier wit_decode full_cfg (Some wit_history) in
  ((forall msg c, WriteDone <> WriteThrew msg (Some c)) /\
   nt_processedMessages n =
     nt_processedMessages (new_notifier wit_decode full_cfg (Some wit_history)) /\
   nt_lastMessageStates n =
     nt_lastMessageStates (new_notifier wit_decode full_cfg (Some wit_history))) /\
  let '(_, _, file') := stop "2026-01-02T00:00:00.000Z" WriteDone None
                          (Some wit_history) n in
  nt_processedMessages (new_notifier wit_decode full_cfg file') = nt_processedMessages n /\
  nt_lastMessageStates (new_notifier wit_decode full_cfg file') = nt_lastMessageStates n.
Proof.
  cbv zeta.
  assert (Hw : forall msg c, WriteDone <> WriteThrew msg (Some c))
    by (intros msg c; discriminate).
  split; [split; [exact Hw | split; reflexivity]|].
  apply (history_survives_restart wit_decode "2026-01-02T00:00:00.000Z" WriteDone None
           full_cfg full_cfg (Some wit_history)
           (new_notifier wit_decode full_cfg (Some wit_history)));
    [exact Hw | reflexivity | reflexivity].
Defined.

Lemma fresh_history_never_saved_witness :
  let n := new_notifier wit_decode full_cfg None in
  (@None HistFile = None /\ nt_processedMessages n = nt_processedMessages n) /\
  nt_processedMessages (new_notifier wit_decode full_cfg None) = None /\
  let '(_, n', file') := stop "2026-01-02T00:00:00.000Z" WriteDone None None n in
  file' = None /\ nt_isRunning n' = false /\
  In "Error saving message history: undefined is not iterable (cannot read property Symbol(Symbol.iterator))"
    (nt_logs n').
Proof.
  cbv zeta. split; [split; reflexivity|].
  apply (fresh_history_never_saved wit_decode "2026-01-02T00:00:00.000Z" WriteDone None
           full_cfg None (new_notifier wit_decode full_cfg None)).
  - left. reflexivity.
  - reflexivity.
Defined.

Lemma replace_key_sets_line_witness :
  let pre := "WHATSAPP_PHONE=+1" ++ String "010"%char "MY_EMAIL_TO" in
  let post := String "010"%char "PORT=3000" in
  (no_dollar ("EMAIL_TO" ++ "=" ++ "new@example.com") = true /\
   JsString.includes (pre ++ "EMAIL_TO") ("EMAIL_TO" ++ "=") = false /\
   no_eol "old@example.com" = true /\ line_end post = true) /\
  replace_key "EMAIL_TO" ("EMAIL_TO" ++ "=" ++ "new@example.com")
    (pre ++ "EMAIL_TO" ++ "=" ++ "old@example.com" ++ post) =
  pre ++ "EMAIL_TO" ++ "=" ++ "new@example.com" ++ post.
Proof.
  cbv zeta. split; [vm_compute; repeat split; reflexivity|].
  apply replace_key_sets_line; vm_compute; reflexivity.
Defined.

Lemma replace_key_dollar_amp_witness :
  let pre := "WHATSAPP_PHONE=+1" ++ String "010"%char EmptyString in
  let post := String "010"%char "PORT=3000" in
  (no_dollar ("EMAIL_TO" ++ "=" ++ "a") = true /\ no_dollar "b@example.com" = true /\
   JsString.includes (pre ++ "EMAIL_TO") ("EMAIL_TO" ++ "=") = false /\
   no_eol "old@example.com" = true /\ line_end post = true) /\
  replace_key "EMAIL_TO" ("EMAIL_TO" ++ "=" ++ "a" ++ "$&" ++ "b@example.com")
    (pre ++ "EMAIL_TO" ++ "=" ++ "old@example.com" ++ post) =
  pre ++ "EMAIL_TO" ++ "=" ++ "a" ++ "EMAIL_TO" ++ "=" ++ "old@example.com"
    ++ "b@example.com" ++ post /\
  email_test "a$&b@example.com" = true.
Proof.
  cbv zeta. split; [vm_compute; repeat split; reflexivity|].
  apply replace_key_dollar_amp; vm_compute; reflexivity.
Defined.

Lemma process_env_keeps_values_witness :
  env_get "EMAIL_USER" (penv wit_srv) = Some "watcher@example.com" /\
  env_get "EMAIL_USER"
    (penv (run wit_dotenv WriteDone wit_no_fail wit_stop_ok wit_srv
             [PostStart wit_body; InitSettled 0; GetStatus; PostStop; Signal])) =
  Some "watcher@example.com".
Proof.
  split; [vm_compute; reflexivity|].
  apply process_env_keeps_values. vm_compute. reflexivity.
Defined.

Lemma second_start_while_first_pending_witness :
  (exited wit_srv = None /\ srv_isRunning wit_srv = false /\ env_file wit_srv <> None /\
   valid_body wit_body /\ valid_body wit_body2) /\
  let s' := run wit_dotenv WriteDone wit_no_fail wit_stop_ok wit_srv
              [PostStart wit_body; PostStart wit_body2] in
  notifier s' = Some (S (next_id wit_srv)) /\ next_id s' = S (S (next_id wit_srv)) /\
  map (fun e => fst (fst e)) (pending_init s') =
    (map (fun e => fst (fst e)) (pending_init wit_srv) ++
       [next_id wit_srv; S (next_id wit_srv)])%list /\
  srv_isRunning s' = false /\ replies s' = replies wit_srv.
Proof.
  assert (V1 : valid_body wit_body)
    by (exists "+905551234567", "a@b.co"; repeat split; reflexivity).
  assert (V2 : valid_body wit_body2)
    by (exists "+14155550100", "c@d.org"; repeat split; reflexivity).
  assert (Hf : env_file wit_srv <> None) by (vm_compute; discriminate).
  split; [exact (conj eq_refl (conj eq_refl (conj Hf (conj V1 V2))))|].
  apply second_start_while_first_pending;
    [reflexivity | reflexivity | exact Hf | exact V1 | exact V2].
Defined.

Lemma successful_start_two_loops_witness :
  (exited wit_srv = None /\ srv_isRunning wit_srv = false /\ env_file wit_srv <> None /\
   pending_init wit_srv = [] /\ valid_body wit_body /\
   (forall st, In st init_steps -> wit_no_fail (next_id wit_srv) st = false)) /\
  let s' := run wit_dotenv WriteDone wit_no_fail wit_stop_ok wit_srv
              [PostStart wit_body; InitSettled (next_id wit_srv); TimerFires] in
  loops s' = (loops wit_srv ++ [next_id wit_srv; next_id wit_srv])%list /\
  srv_isRunning s' = true /\ notifier s' = Some (next_id wit_srv) /\
  timers s' = timers wit_srv.
Proof.
  assert (V : valid_body wit_body)
    by (exists "+905551234567", "a@b.co"; repeat split; reflexivity).
  assert (Hf : env_file wit_srv <> None) by (vm_compute; discriminate).
  assert (Hi : forall st, In st init_steps -> wit_no_fail (next_id wit_srv) st = false)
    by (intros st _; reflexivity).
  split; [exact (conj eq_refl (conj eq_refl (conj Hf (conj eq_refl (conj V Hi)))))|].
  apply successful_start_two_loops;
    [reflexivity | reflexivity | exact Hf | reflexivity | exact V | exact Hi].
Defined.

Lemma failed_start_not_stopped_witness :
  (exited wit_srv = None /\ srv_isRunning wit_srv = false /\ env_file wit_srv <> None /\
   pending_init wit_srv = [] /\ valid_body wit_body /\
   (exists st, In st init_steps /\ wit_launch_fails (next_id wit_srv) st = true)) /\
  let s' := run wit_dotenv WriteDone wit_launch_fails wit_stop_ok wit_srv
              [PostStart wit_body; InitSettled (next_id wit_srv); PostStop] in
  notifier s' = Some (next_id wit_srv) /\ srv_isRunning s' = false /\
  stops s' = stops wit_srv /\ loops s' = loops wit_srv /\
  last (replies s') (JsonStatus false "") =
    JsonResult 200 false "No monitoring process is currently running.".
Proof.
  assert (V : valid_body wit_body)
    by (exists "+905551234567", "a@b.co"; repeat split; reflexivity).
  assert (Hf : env_file wit_srv <> None) by (vm_compute; discriminate).
  assert (Hi : exists st, In st init_steps /\ wit_launch_fails (next_id wit_srv) st = true)
    by (exists Launch; split; [cbn; left; reflexivity | reflexivity]).
  split; [exact (conj eq_refl (conj eq_refl (conj Hf (conj eq_refl (conj V Hi)))))|].
  apply failed_start_not_stopped;
    [reflexivity | reflexivity | exact Hf | reflexivity | exact V | exact Hi].
Defined.

Lemma signal_exits_without_stop_witness :
  let s := run wit_dotenv WriteDone wit_no_fail wit_stop_ok wit_srv
             [PostStart wit_body; InitSettled 0; TimerFires] in
  exited s = None /\
  let s' := step wit_dotenv WriteDone wit_no_fail wit_stop_ok s Signal in
  exited s' = Some 0 /\ stops s' = stops s /\ pending_stop s' = pending_stop s.
Proof.
  cbv zeta. split; [vm_compute; reflexivity|].
  apply signal_exits_without_stop. vm_compute. reflexivity.
Defined.

Lemma truncated_history_lost_witness :
  let n := new_notifier wit_decode full_cfg (Some wit_history) in
  (nt_processedMessages n = Some ["a"; "b"] /\
   nt_lastMessageStates n = Some [("k", "3"); ("j", "2")] /\
   wit_decode "{" = DecodeFailed "{") /\
  let '(_, _, file1) := stop "2026-01-02T00:00:00.000Z"
                          (WriteThrew "ENOSPC: no space left on device, write" (Some "{"))
                          None (Some wit_history) n in
  file1 = Some (Foreign "{") /\
  let n1 := new_notifier wit_decode full_cfg file1 in
  nt_processedMessages n1 = None /\ nt_lastMessageStates n1 = None /\
  let '(_, _, file2) := stop "2026-01-03T00:00:00.000Z" WriteDone None file1 n1 in
  file2 = Some (Foreign "{").
Proof.
  cbv zeta.
  assert (Hp : nt_processedMessages (new_notifier wit_decode full_cfg (Some wit_history))
               = Some ["a"; "b"]) by (vm_compute; reflexivity).
  assert (Hs : nt_lastMessageStates (new_notifier wit_decode full_cfg (Some wit_history))
               = Some [("k", "3"); ("j", "2")]) by (vm_compute; reflexivity).
  assert (Hd : wit_decode "{" = DecodeFailed "{") by reflexivity.
  split; [exact (conj Hp (conj Hs Hd))|].
  exact (truncated_history_lost wit_decode "2026-01-02T00:00:00.000Z"
           "2026-01-03T00:00:00.000Z" "ENOSPC: no space left on device, write" "{"
           WriteDone None None full_cfg (Some wit_history)
           (new_notifier wit_decode full_cfg (Some wit_history)) _ _ "{" Hp Hs Hd).
Defined.
